(** * StudyShare backend: the Post, Comment and User models

    A shallow embedding of the Mongoose models of the study-sharing backend
    (models/Post.js, the Comment model and the User model) together with the
    properties of the scoring, rating, view-tracking and comment code.

    Conventions of the embedding.

    - A JavaScript [Number] that the code only ever uses as a counter
      (array lengths, [views], the rating histogram) is a natural number in
      [N]; a [Date] is its millisecond timestamp in [Z].
    - The weighted scores and the rating average are computed in [Q], that
      is with exact arithmetic; module [Binary64] holds the same
      expressions on IEEE-754 binary64 numbers, on which the numeric
      scenarios are run again.
    - A document method mutates [this] and then awaits [save()], which may
      reject.  The mutations survive a rejection, so the methods live in a
      state monad with errors in which the state is kept when an error is
      raised.
    - [new Date()] is the parameter [now] of each operation. *)

From Stdlib Require Import ZArith NArith QArith Qround String List Lia Sorted.
From Stdlib Require Import Floats Uint63.
From stdpp Require Import gmap strings.
Import ListNotations.

Local Open Scope Z_scope.

(** ** Errors and the state monad of document methods *)

Inductive Error : Type :=
| JsError (message : string)           (* throw new Error(message) *)
| ValidationError (path : string)      (* Mongoose validator failure on [path] *)
| MongoServerError (message : string)  (* the database rejected a command *)
| InvalidStateError (message : string)
| NotFoundError (what : string).

Inductive Result (A : Type) : Type :=
| Ok (a : A)
| Err (e : Error).
Arguments Ok {A} a.
Arguments Err {A} e.

Definition M (S A : Type) : Type := S -> Result A * S.

Definition ret {S A} (a : A) : M S A := fun s => (Ok a, s).

Definition bind {S A B} (m : M S A) (k : A -> M S B) : M S B :=
  fun s =>
    match m s with
    | (Ok a, s') => k a s'
    | (Err e, s') => (Err e, s')
    end.

Definition throw {S A} (e : Error) : M S A := fun s => (Err e, s).
Definition get {S} : M S S := fun s => (Ok s, s).
Definition modify {S} (f : S -> S) : M S unit := fun s => (Ok tt, f s).

Notation "x <- c ;; k" := (bind c (fun x => k))
  (at level 100, c at next level, right associativity).
Notation "c ;; k" := (bind c (fun _ => k))
  (at level 100, right associativity).

(** ** Data model *)

Definition ObjectId : Type := N.
Definition Time : Type := Z.

(** JavaScript truthiness of the values the code tests. *)
Definition truthy_string (s : string) : bool := negb (String.eqb s "").
Definition truthy_opt_string (o : option string) : bool :=
  match o with Some s => truthy_string s | None => false end.

(** [a || b] on an optional string and a string. *)
Definition or_string (o : option string) (s : string) : string :=
  match o with
  | Some a => if truthy_string a then a else s
  | None => s
  end.

(** Numbers as rationals. *)
Definition num (n : N) : Q := inject_Z (Z.of_N n).

(** [Math.round(x)]: the nearest integer, halves rounded up. *)
Definition Math_round (x : Q) : Q := inject_Z (Qfloor (x + (1 # 2))).

(** The characters [\s] matches among the code units below 256: tab, line
    feed, vertical tab, form feed, carriage return, space and the
    no-break space. *)
Definition is_space (c : Ascii.ascii) : bool :=
  match Ascii.N_of_ascii c with
  | 9 | 10 | 11 | 12 | 13 | 32 | 160 => true
  | _ => false
  end%N.

(** [s.trim()], the setter of the schema paths declared with [trim: true]:
    the white space at both ends is removed. *)
Fixpoint trim_start (s : string) : string :=
  match s with
  | EmptyString => EmptyString
  | String c rest => if is_space c then trim_start rest else s
  end.

Fixpoint trim_end (s : string) : string :=
  match s with
  | EmptyString => EmptyString
  | String c rest =>
      match trim_end rest with
      | EmptyString => if is_space c then EmptyString else String c EmptyString
      | kept => String c kept
      end
  end.

Definition trim (s : string) : string := trim_end (trim_start s).

Module PostType.
Inductive t : Type := summary | question | idea | mindmap | resource | discussion.
Definition eqb (a b : t) : bool :=
  match a, b with
  | summary, summary | question, question | idea, idea
  | mindmap, mindmap | resource, resource | discussion, discussion => true
  | _, _ => false
  end.
End PostType.

Module PostStatus.
Inductive t : Type := draft | published | archived | flagged | deleted.
Definition eqb (a b : t) : bool :=
  match a, b with
  | draft, draft | published, published | archived, archived
  | flagged, flagged | deleted, deleted => true
  | _, _ => false
  end.
End PostStatus.

Module CommentStatus.
Inductive t : Type := active | deleted | flagged | hidden.
Definition eqb (a b : t) : bool :=
  match a, b with
  | active, active | deleted, deleted | flagged, flagged | hidden, hidden => true
  | _, _ => false
  end.
End CommentStatus.

(** The slug is [slugify(`${title} ${timestamp}`, ...)] of an external
    package; it is kept as the term it was built from, [timestamp] being the
    last five decimal digits of [Date.now()]. *)
Inductive Slug : Type := slugify (title : string) (timestamp : Z).

(** [rating.details]: the fixed keys 1..5. *)
Module Details.
Record t : Type := mk { d1 : N; d2 : N; d3 : N; d4 : N; d5 : N }.

(** [details[k]], [undefined] off the five keys. *)
Definition get (k : Z) (d : t) : option N :=
  match k with
  | 1 => Some (d1 d) | 2 => Some (d2 d) | 3 => Some (d3 d)
  | 4 => Some (d4 d) | 5 => Some (d5 d)
  | _ => None
  end.

(** [details[k] = v] for a key of the schema. *)
Definition set (k : Z) (v : N) (d : t) : t :=
  match k with
  | 1 => mk v (d2 d) (d3 d) (d4 d) (d5 d)
  | 2 => mk (d1 d) v (d3 d) (d4 d) (d5 d)
  | 3 => mk (d1 d) (d2 d) v (d4 d) (d5 d)
  | 4 => mk (d1 d) (d2 d) (d3 d) v (d5 d)
  | 5 => mk (d1 d) (d2 d) (d3 d) (d4 d) v
  | _ => d
  end.

(** [Object.entries(details)] with the keys already through [parseInt],
    and [Object.values(details)]. *)
Definition entries (d : t) : list (Z * N) :=
  [(1, d1 d); (2, d2 d); (3, d3 d); (4, d4 d); (5, d5 d)].
Definition values (d : t) : list N := map snd (entries d).
End Details.

Module Rating.
Record t : Type := mk { average : Q; count : N; details : Details.t }.

(** The setter of [rating.average]: [val => Math.round(val * 10) / 10]. *)
Definition average_setter (val : Q) : Q := (Math_round (val * 10) / 10)%Q.

Definition set_average (val : Q) (r : t) : t :=
  mk (average_setter val) (count r) (details r).
Definition set_count (c : N) (r : t) : t := mk (average r) c (details r).
Definition set_details (d : Details.t) (r : t) : t := mk (average r) (count r) d.
End Rating.

Module ViewEntry.
Record t : Type := mk { userId : ObjectId; viewedAt : Time }.
End ViewEntry.

Module Post.
Record t : Type := mk {
  _id : ObjectId;
  title : string;
  slug : option Slug;
  content : string;
  excerpt : option string;
  author : ObjectId;
  authorName : string;
  postType : PostType.t;
  subject : string;
  tags : list string;
  likes : list ObjectId;
  saves : list ObjectId;
  views : N;
  viewHistory : list ViewEntry.t;
  rating : Rating.t;
  status : PostStatus.t;
  publishedAt : Time;
  lastActivity : Time;
  isSolved : bool;
  acceptedAnswer : option ObjectId;
  (* the virtual populate [commentsCount]: undefined until populated *)
  commentsCount : option N;
  (* Mongoose change tracking *)
  isNew : bool;
  modifiedPaths : list string
}.

Definition isModified (path : string) (p : t) : bool :=
  existsb (String.eqb path) (modifiedPaths p).

Definition set_slug (v : option Slug) (p : t) : t :=
  mk (_id p) (title p) v (content p) (excerpt p) (author p) (authorName p)
     (postType p) (subject p) (tags p) (likes p) (saves p) (views p)
     (viewHistory p) (rating p) (status p) (publishedAt p) (lastActivity p)
     (isSolved p) (acceptedAnswer p) (commentsCount p) (isNew p)
     ("slug"%string :: modifiedPaths p).

Definition set_excerpt (v : option string) (p : t) : t :=
  mk (_id p) (title p) (slug p) (content p) v (author p) (authorName p)
     (postType p) (subject p) (tags p) (likes p) (saves p) (views p)
     (viewHistory p) (rating p) (status p) (publishedAt p) (lastActivity p)
     (isSolved p) (acceptedAnswer p) (commentsCount p) (isNew p)
     ("excerpt"%string :: modifiedPaths p).

Definition set_views (v : N) (p : t) : t :=
  mk (_id p) (title p) (slug p) (content p) (excerpt p) (author p) (authorName p)
     (postType p) (subject p) (tags p) (likes p) (saves p) v
     (viewHistory p) (rating p) (status p) (publishedAt p) (lastActivity p)
     (isSolved p) (acceptedAnswer p) (commentsCount p) (isNew p)
     ("views"%string :: modifiedPaths p).

Definition set_viewHistory (v : list ViewEntry.t) (p : t) : t :=
  mk (_id p) (title p) (slug p) (content p) (excerpt p) (author p) (authorName p)
     (postType p) (subject p) (tags p) (likes p) (saves p) (views p)
     v (rating p) (status p) (publishedAt p) (lastActivity p)
     (isSolved p) (acceptedAnswer p) (commentsCount p) (isNew p)
     ("viewHistory"%string :: modifiedPaths p).

Definition set_rating (path : string) (v : Rating.t) (p : t) : t :=
  mk (_id p) (title p) (slug p) (content p) (excerpt p) (author p) (authorName p)
     (postType p) (subject p) (tags p) (likes p) (saves p) (views p)
     (viewHistory p) v (status p) (publishedAt p) (lastActivity p)
     (isSolved p) (acceptedAnswer p) (commentsCount p) (isNew p)
     (path :: modifiedPaths p).

Definition set_lastActivity (v : Time) (p : t) : t :=
  mk (_id p) (title p) (slug p) (content p) (excerpt p) (author p) (authorName p)
     (postType p) (subject p) (tags p) (likes p) (saves p) (views p)
     (viewHistory p) (rating p) (status p) (publishedAt p) v
     (isSolved p) (acceptedAnswer p) (commentsCount p) (isNew p)
     ("lastActivity"%string :: modifiedPaths p).

Definition set_commentsCount (v : option N) (p : t) : t :=
  mk (_id p) (title p) (slug p) (content p) (excerpt p) (author p) (authorName p)
     (postType p) (subject p) (tags p) (likes p) (saves p) (views p)
     (viewHistory p) (rating p) (status p) (publishedAt p) (lastActivity p)
     (isSolved p) (acceptedAnswer p) v (isNew p) (modifiedPaths p).

Definition set_isSolved (v : bool) (p : t) : t :=
  mk (_id p) (title p) (slug p) (content p) (excerpt p) (author p) (authorName p)
     (postType p) (subject p) (tags p) (likes p) (saves p) (views p)
     (viewHistory p) (rating p) (status p) (publishedAt p) (lastActivity p)
     v (acceptedAnswer p) (commentsCount p) (isNew p)
     ("isSolved"%string :: modifiedPaths p).

(** What the driver leaves behind after a successful write. *)
Definition reset_tracking (p : t) : t :=
  mk (_id p) (title p) (slug p) (content p) (excerpt p) (author p) (authorName p)
     (postType p) (subject p) (tags p) (likes p) (saves p) (views p)
     (viewHistory p) (rating p) (status p) (publishedAt p) (lastActivity p)
     (isSolved p) (acceptedAnswer p) (commentsCount p) false [].

(** *** Virtuals *)

Definition likesCount (p : t) : N := N.of_nat (length (likes p)).
Definition savesCount (p : t) : N := N.of_nat (length (saves p)).

Definition popularityScore (p : t) : Q :=
  let likesWeight := (num (likesCount p) * 2)%Q in
  let savesWeight := (num (savesCount p) * 3)%Q in
  let commentsWeight := (num (default 0%N (commentsCount p)) * (3 # 2))%Q in
  let viewsWeight := (num (views p) * (1 # 10))%Q in
  let ratingWeight := (Rating.average (rating p) * 20)%Q in
  (likesWeight + savesWeight + commentsWeight + viewsWeight + ratingWeight)%Q.
End Post.

Module EditEntry.
Record t : Type := mk { content : string; editedAt : Time; reason : string }.
End EditEntry.

Module Comment.
Record t : Type := mk {
  _id : ObjectId;
  content : string;
  (* the ad-hoc property [_previousContent], unset unless a caller sets it *)
  _previousContent : option string;
  author : ObjectId;
  authorName : string;
  post : ObjectId;
  parentComment : option ObjectId;
  depth : N;
  likes : list ObjectId;
  status : CommentStatus.t;
  isAcceptedAnswer : bool;
  edited : bool;
  editHistory : list EditEntry.t;
  isNew : bool;
  modifiedPaths : list string
}.

Definition isModified (path : string) (c : t) : bool :=
  existsb (String.eqb path) (modifiedPaths c).

Definition set_depth (v : N) (c : t) : t :=
  mk (_id c) (content c) (_previousContent c) (author c) (authorName c) (post c)
     (parentComment c) v (likes c) (status c) (isAcceptedAnswer c) (edited c)
     (editHistory c) (isNew c) ("depth"%string :: modifiedPaths c).

Definition set_edited (v : bool) (c : t) : t :=
  mk (_id c) (content c) (_previousContent c) (author c) (authorName c) (post c)
     (parentComment c) (depth c) (likes c) (status c) (isAcceptedAnswer c) v
     (editHistory c) (isNew c) ("edited"%string :: modifiedPaths c).

Definition set_editHistory (v : list EditEntry.t) (c : t) : t :=
  mk (_id c) (content c) (_previousContent c) (author c) (authorName c) (post c)
     (parentComment c) (depth c) (likes c) (status c) (isAcceptedAnswer c) (edited c)
     v (isNew c) ("editHistory"%string :: modifiedPaths c).

Definition set_isAcceptedAnswer (v : bool) (c : t) : t :=
  mk (_id c) (content c) (_previousContent c) (author c) (authorName c) (post c)
     (parentComment c) (depth c) (likes c) (status c) v (edited c)
     (editHistory c) (isNew c) (modifiedPaths c).

(** [comment._previousContent = v]: not a schema path, so untracked. *)
Definition set_previousContent (v : option string) (c : t) : t :=
  mk (_id c) (content c) v (author c) (authorName c) (post c)
     (parentComment c) (depth c) (likes c) (status c) (isAcceptedAnswer c) (edited c)
     (editHistory c) (isNew c) (modifiedPaths c).

(** [comment.content = v]: the value goes through the [trim] setter of the
    path, and Mongoose marks the path modified when the trimmed value
    differs from the current one. *)
Definition assign_content (v : string) (c : t) : t :=
  mk (_id c) (trim v) (_previousContent c) (author c) (authorName c) (post c)
     (parentComment c) (depth c) (likes c) (status c) (isAcceptedAnswer c) (edited c)
     (editHistory c) (isNew c)
     (if String.eqb (trim v) (content c) then modifiedPaths c
      else "content"%string :: modifiedPaths c).

Definition reset_tracking (c : t) : t :=
  mk (_id c) (content c) (_previousContent c) (author c) (authorName c) (post c)
     (parentComment c) (depth c) (likes c) (status c) (isAcceptedAnswer c) (edited c)
     (editHistory c) false [].

(** [new Comment({content, author, authorName, post, parentComment})]
    with the defaults of the schema; the content goes through the [trim]
    setter of its path. *)
Definition new (id : ObjectId) (content : string) (author : ObjectId)
    (authorName : string) (post : ObjectId) (parentComment : option ObjectId) : t :=
  mk id (trim content) None author authorName post parentComment 0%N [] CommentStatus.active
     false false [] true
     ["content"; "author"; "authorName"; "post"; "parentComment"]%string.
End Comment.

Module User.
Record stats_t : Type := mk_stats { postsCount : N; commentsCount : N }.
Record t : Type := mk {
  displayName : string;
  avatar : string;
  stats : stats_t
}.

(** [{ $inc: { 'stats.postsCount': 1 } }] and its sibling for comments. *)
Definition inc_postsCount (u : t) : t :=
  mk (displayName u) (avatar u)
     (mk_stats (postsCount (stats u) + 1) (commentsCount (stats u))).
Definition inc_commentsCount (u : t) : t :=
  mk (displayName u) (avatar u)
     (mk_stats (postsCount (stats u)) (commentsCount (stats u) + 1)).
End User.

(** The three collections, keyed by [_id]. *)
Record World : Type := mkWorld {
  posts : gmap ObjectId Post.t;
  comments : gmap ObjectId Comment.t;
  users : gmap ObjectId User.t
}.

Definition set_posts (v : gmap ObjectId Post.t) (w : World) : World :=
  mkWorld v (comments w) (users w).
Definition set_comments (v : gmap ObjectId Comment.t) (w : World) : World :=
  mkWorld (posts w) v (users w).
Definition set_users (v : gmap ObjectId User.t) (w : World) : World :=
  mkWorld (posts w) (comments w) v.

(** The virtual populate [commentsCount]: the number of comments whose
    [post] is this post. *)
Definition countComments (w : World) (postId : ObjectId) : N :=
  N.of_nat (length (filter (fun c => Comment.post c = postId)
                           (snd <$> map_to_list (comments w)))).

Definition populate_commentsCount (w : World) (p : Post.t) : Post.t :=
  Post.set_commentsCount (Some (countComments w (Post._id p))) p.

(** The popularity score as the spec words it, with the number of comments
    of the post in the comment term. *)
Definition spec_popularityScore (w : World) (p : Post.t) : Q :=
  (num (Post.likesCount p) * 2 + num (Post.savesCount p) * 3
   + num (countComments w (Post._id p)) * (15 # 10)
   + num (Post.views p) * (1 # 10) + Rating.average (Post.rating p) * 20)%Q.

(** ** The Post model: validation, hooks and [save] *)

Definition first_error (checks : list (bool * string)) : Result unit :=
  match find (fun c => negb (fst c)) checks with
  | Some c => Err (ValidationError (snd c))
  | None => Ok tt
  end.

Definition subjects : list string :=
  ["math"; "physics"; "chemistry"; "biology"; "arabic"; "english"; "history";
   "geography"; "computer"; "other"]%string.

Definition strlen (s : string) : N := N.of_nat (String.length s).

Definition len_between (lo hi : N) (s : string) : bool :=
  ((lo <=? strlen s) && (strlen s <=? hi))%N.

(** The validators of the schema on the paths of the embedding. *)
Definition validatePost (p : Post.t) : Result unit :=
  first_error
    [ (len_between 5 200 (Post.title p), "title");
      (len_between 10 10000 (Post.content p), "content");
      (match Post.excerpt p with
       | Some e => (strlen e <=? 300)%N
       | None => true
       end, "excerpt");
      (truthy_string (Post.authorName p), "authorName");
      (existsb (String.eqb (Post.subject p)) subjects, "subject");
      (forallb (fun t => (strlen t <=? 20)%N) (Post.tags p), "tags");
      (Qle_bool 0 (Rating.average (Post.rating p))
       && Qle_bool (Rating.average (Post.rating p)) 5, "rating.average") ]%string.

(** [postSchema.pre('save', ...)]. *)
Definition postPreSave (now : Time) (p : Post.t) : Post.t :=
  (* Generate slug from title *)
  let p :=
    if Post.isModified "title" p
    then Post.set_slug (Some (slugify (Post.title p) (now mod 100000))) p
    else p in
  (* Generate excerpt if not provided *)
  let p :=
    if negb (truthy_opt_string (Post.excerpt p)) && truthy_string (Post.content p)
    then Post.set_excerpt (Some (substring 0 200 (Post.content p) ++ "...")%string) p
    else p in
  (* Update last activity *)
  Post.set_lastActivity now p.

(** [postSchema.post('save', ...)]: the author's [stats.postsCount]. *)
Definition postPostSave (doc : Post.t) (w : World) : World :=
  if PostStatus.eqb (Post.status doc) PostStatus.published
  then set_users (alter User.inc_postsCount (Post.author doc) (users w)) w
  else w.

(** The write itself: the document replaces its stored version; virtuals are
    not stored. *)
Definition storePost (doc : Post.t) (w : World) : World :=
  set_posts (<[Post._id doc := Post.set_commentsCount None doc]> (posts w)) w.

(** [this.save()]: validation, then the pre-save hook, then the write, then
    the post-save hook. *)
Definition save (now : Time) : M (Post.t * World) unit :=
  s <- get ;;
  match validatePost (fst s) with
  | Err e => throw e
  | Ok _ =>
      modify (fun s => (postPreSave now (fst s), snd s)) ;;
      modify (fun s => let doc := Post.reset_tracking (fst s) in
                       (doc, storePost doc (snd s))) ;;
      modify (fun s => (fst s, postPostSave (fst s) (snd s)))
  end.

(** ** [incrementViews] *)

Definition day_ms : Z := 24 * 60 * 60 * 1000.

(** The predicate of [viewHistory.find]. *)
Definition recentViewBy (userId : ObjectId) (now : Time) (view : ViewEntry.t) : bool :=
  N.eqb (ViewEntry.userId view) userId && (now - ViewEntry.viewedAt view <? day_ms).

Definition incrementViews (userId : option ObjectId) (now : Time)
  : M (Post.t * World) unit :=
  modify (fun s => (Post.set_views (Post.views (fst s) + 1) (fst s), snd s)) ;;
  match userId with
  | Some uid =>
      s <- get ;;
      (* Add to view history if not already viewed recently *)
      let recentView := find (recentViewBy uid now) (Post.viewHistory (fst s)) in
      match recentView with
      | None =>
          modify (fun s =>
            (Post.set_viewHistory
               (Post.viewHistory (fst s) ++ [ViewEntry.mk uid now]) (fst s),
             snd s))
      | Some _ => ret tt
      end
  | None => ret tt
  end ;;
  save now.

(** ** [addRating] *)

Definition values_total (d : Details.t) : N :=
  fold_left (fun a b => (a + b)%N) (Details.values d) 0%N.

Definition weighted_total (d : Details.t) : N :=
  fold_left (fun sum e => (sum + Z.to_N (fst e) * snd e)%N) (Details.entries d) 0%N.

Definition addRating (userId : ObjectId) (ratingValue : Z) (now : Time)
  : M (Post.t * World) unit :=
  if (ratingValue <? 1) || (ratingValue >? 5)
  then throw (JsError "Rating must be between 1 and 5")
  else
    (* Update rating details *)
    modify (fun s =>
      let r := Post.rating (fst s) in
      let oldRating := default 0%N (Details.get ratingValue (Rating.details r)) in
      (Post.set_rating "rating.details"
         (Rating.set_details
            (Details.set ratingValue (oldRating + 1)%N (Rating.details r)) r)
         (fst s),
       snd s)) ;;
    (* Recalculate average *)
    s <- get ;;
    let totalRatings := values_total (Rating.details (Post.rating (fst s))) in
    let sumRatings := weighted_total (Rating.details (Post.rating (fst s))) in
    modify (fun s =>
      (Post.set_rating "rating.average"
         (Rating.set_average (num sumRatings / num totalRatings)%Q (Post.rating (fst s)))
         (fst s),
       snd s)) ;;
    modify (fun s =>
      (Post.set_rating "rating.count"
         (Rating.set_count totalRatings (Post.rating (fst s))) (fst s),
       snd s)) ;;
    save now.

(** ** The Comment model: validation, hooks and [save] *)

Definition validateComment (c : Comment.t) : Result unit :=
  first_error
    [ (len_between 1 2000 (Comment.content c), "content");
      (truthy_string (Comment.authorName c), "authorName");
      ((Comment.depth c <=? 5)%N, "depth") ]%string.

(** [commentSchema.pre('save', ...)]. *)
Definition commentPreSave (now : Time) (c : Comment.t) : Comment.t :=
  (* Calculate depth if parent comment exists *)
  let c :=
    match Comment.parentComment c with
    | Some _ => Comment.set_depth 1 c   (* Will be updated in post-save *)
    | None => c
    end in
  (* Track edit history *)
  if Comment.isModified "content" c && negb (Comment.isNew c)
  then
    let c := Comment.set_edited true c in
    Comment.set_editHistory
      (Comment.editHistory c ++
       [EditEntry.mk (or_string (Comment._previousContent c) (Comment.content c))
                     now "User edit"])
      c
  else c.

Definition storeComment (doc : Comment.t) (w : World) : World :=
  set_comments (<[Comment._id doc := doc]> (comments w)) w.

(** Modelled from the spec: the end of the comment post-save hook.  The
    source of the hook stops after the user statistics, at a line reading
    "Update"; the pre-save hook announces that the depth it sets "will be
    updated in post-save".  The spec gives the value: with a parent comment
    the depth is min(parent.depth + 1, 5), else it is 0.  A parent that is
    not in the collection leaves the depth as the pre-save hook set it. *)
Definition specDepth (doc : Comment.t) (w : World) : N :=
  match Comment.parentComment doc with
  | Some parentId =>
      match comments w !! parentId with
      | Some parent => N.min (Comment.depth parent + 1) 5
      | None => Comment.depth doc
      end
  | None => 0%N
  end.

(** [commentSchema.post('save', ...)]: the part present in the source. *)
Definition commentPostSave (now : Time) (doc : Comment.t) (w : World) : World :=
  (* Update parent post's last activity *)
  let w := set_posts (alter (Post.set_lastActivity now) (Comment.post doc) (posts w)) w in
  (* Update user stats *)
  if CommentStatus.eqb (Comment.status doc) CommentStatus.active
  then set_users (alter User.inc_commentsCount (Comment.author doc) (users w)) w
  else w.

(** Modelled from the spec: the depth update that ends the post-save hook
    (see [specDepth]), applied to the document and to its stored version. *)
Definition commentPostSave_depth (s : Comment.t * World) : Comment.t * World :=
  let doc := Comment.reset_tracking (Comment.set_depth (specDepth (fst s) (snd s)) (fst s)) in
  (doc, storeComment doc (snd s)).

Definition saveComment (now : Time) : M (Comment.t * World) unit :=
  s <- get ;;
  match validateComment (fst s) with
  | Err e => throw e
  | Ok _ =>
      modify (fun s => (commentPreSave now (fst s), snd s)) ;;
      modify (fun s => let doc := Comment.reset_tracking (fst s) in
                       (doc, storeComment doc (snd s))) ;;
      modify (fun s => (fst s, commentPostSave now (fst s) (snd s))) ;;
      modify commentPostSave_depth
  end.

(** Modelled from the spec: [createComment(post, author, content,
    parentComment)], whose caller-side code is not in the source files.  It
    is a new document with the defaults of the schema, saved; depth, post
    activity, author statistics and the content check then come from the
    hooks and validators above. *)
Definition createComment (id : ObjectId) (post author : ObjectId) (authorName content : string)
    (parentComment : option ObjectId) (now : Time) (w : World)
  : Result unit * (Comment.t * World) :=
  saveComment now (Comment.new id content author authorName post parentComment, w).

(** An edit of the content as a caller of the model performs it: assign the
    new content and save.  With [stash] the caller first keeps the current
    content in [_previousContent], the property the pre-save hook reads. *)
Definition editContent (stash : bool) (newContent : string) (now : Time)
  : M (Comment.t * World) unit :=
  (if stash
   then modify (fun s => (Comment.set_previousContent (Some (Comment.content (fst s))) (fst s),
                          snd s))
   else ret tt) ;;
  modify (fun s => (Comment.assign_content newContent (fst s), snd s)) ;;
  saveComment now.

(** ** [acceptAnswer] *)

(** Modelled from the spec: [acceptAnswer(post, comment)], which is not in the
    source files (only the fields [isAcceptedAnswer], [isSolved] and
    [acceptedAnswer] are).  It
    is valid only if post.postType = question; it unsets isAcceptedAnswer on
    any previously accepted comment for that post, sets it on the given
    comment and sets post.isSolved = true; it fails with InvalidStateError
    if the comment does not belong to the post. *)
Definition acceptAnswer (postId commentId : ObjectId) : M World unit :=
  w <- get ;;
  match posts w !! postId, comments w !! commentId with
  | Some p, Some c =>
      if negb (PostType.eqb (Post.postType p) PostType.question)
      then throw (InvalidStateError "post is not a question")
      else if negb (N.eqb (Comment.post c) postId)
      then throw (InvalidStateError "comment does not belong to post")
      else
        modify (fun w =>
          set_comments
            ((fun c' => if N.eqb (Comment.post c') postId
                        then Comment.set_isAcceptedAnswer false c' else c')
               <$> comments w) w) ;;
        modify (fun w =>
          set_comments (alter (Comment.set_isAcceptedAnswer true) commentId (comments w)) w) ;;
        modify (fun w =>
          set_posts (alter (Post.set_isSolved true) postId (posts w)) w)
  | _, _ => throw (NotFoundError "post or comment")
  end.

(** At most one comment of post [postId] is marked as the accepted answer. *)
Definition atMostOneAccepted (postId : ObjectId) (w : World) : Prop :=
  forall (i j : ObjectId) (ci cj : Comment.t),
    comments w !! i = Some ci -> comments w !! j = Some cj ->
    Comment.post ci = postId -> Comment.post cj = postId ->
    Comment.isAcceptedAnswer ci = true -> Comment.isAcceptedAnswer cj = true ->
    i = j.

(** A sequence of [acceptAnswer] calls; a call that fails leaves the
    collections as they were and the sequence goes on. *)
Fixpoint acceptAnswers (calls : list (ObjectId * ObjectId)) (w : World) : World :=
  match calls with
  | [] => w
  | (postId, commentId) :: rest => acceptAnswers rest (snd (acceptAnswer postId commentId w))
  end.

(** ** [getTrending]: the aggregation pipeline *)

(** The documents that flow through the pipeline: a post with the fields the
    [$addFields] and [$lookup] stages add. *)
Module Candidate.
Record t : Type := mk {
  doc : Post.t;
  score : Q;
  recency : Q;
  trendingScore : Q;
  authorDetails : list User.t
}.
End Candidate.

(** The documents of the final [$project]. *)
Module Summary.
Record t : Type := mk {
  title : string;
  slug : option Slug;
  excerpt : option string;
  postType : PostType.t;
  subject : string;
  authorName : string;
  authorAvatar : string;
  likesCount : N;
  savesCount : N;
  views : N;
  rating : Rating.t;
  publishedAt : Time;
  tags : list string
}.
End Summary.

(** The [$divide] operator: the server fails the aggregation on a zero
    divisor ("can't $divide by zero"). *)
Definition divide (a b : Q) : Result Q :=
  if Qeq_bool b 0 then Err (MongoServerError "can't $divide by zero")
  else Ok (a / b)%Q.

(** [{ $match: { status: 'published' } }], with [subject] added to the
    filter when the argument is truthy. *)
Definition matches (subject : option string) (p : Post.t) : bool :=
  PostStatus.eqb (Post.status p) PostStatus.published
  && (if truthy_opt_string subject
      then String.eqb (Post.subject p) (default ""%string subject)
      else true).

(** The first [$addFields]: [score] and [recency]. *)
Definition stage_score (p : Post.t) : Q :=
  (num (N.of_nat (length (Post.likes p))) * 2
   + num (N.of_nat (length (Post.saves p))) * 3
   + num (Post.views p) * (1 # 10)
   + Rating.average (Post.rating p) * 20)%Q.

Definition stage_recency (now : Time) (p : Post.t) : Q :=
  (inject_Z (now - Post.publishedAt p) / inject_Z (1000 * 60 * 60 * 24))%Q.

(** The second [$addFields]: [trendingScore]. *)
Definition stage_trendingScore (now : Time) (p : Post.t) : Result Q :=
  divide (stage_score p) (1 + stage_recency now p)%Q.

Definition addFields (now : Time) (p : Post.t) : Result Candidate.t :=
  match stage_trendingScore now p with
  | Ok ts => Ok (Candidate.mk p (stage_score p) (stage_recency now p) ts [])
  | Err e => Err e
  end.

Fixpoint mapResult {A B} (f : A -> Result B) (l : list A) : Result (list B) :=
  match l with
  | [] => Ok []
  | x :: rest =>
      match f x with
      | Err e => Err e
      | Ok y =>
          match mapResult f rest with
          | Err e => Err e
          | Ok ys => Ok (y :: ys)
          end
      end
  end.

(** [{ $sort: { trendingScore: -1 } }] as a stable insertion sort. *)
Fixpoint insert_desc {A} (key : A -> Q) (x : A) (l : list A) : list A :=
  match l with
  | [] => [x]
  | y :: rest =>
      if Qle_bool (key y) (key x) then x :: y :: rest
      else y :: insert_desc key x rest
  end.

Definition sort_desc {A} (key : A -> Q) (l : list A) : list A :=
  fold_right (insert_desc key) [] l.

(** The order of a list sorted by descending [key]. *)
Definition desc {A} (key : A -> Q) (a b : A) : Prop := (key b <= key a)%Q.

(** [$lookup] of the author in [users], then [$unwind]: one document per
    matching user, none when the author is unknown. *)
Definition lookup_author (w : World) (c : Candidate.t) : Candidate.t :=
  Candidate.mk (Candidate.doc c) (Candidate.score c) (Candidate.recency c)
    (Candidate.trendingScore c)
    (option_list (users w !! Post.author (Candidate.doc c))).

Definition project (p : Post.t) (authorDetails : User.t) : Summary.t :=
  Summary.mk (Post.title p) (Post.slug p) (Post.excerpt p) (Post.postType p)
    (Post.subject p) (Post.authorName p) (User.avatar authorDetails)
    (N.of_nat (length (Post.likes p))) (N.of_nat (length (Post.saves p)))
    (Post.views p) (Post.rating p) (Post.publishedAt p) (Post.tags p).

Definition unwind_project (c : Candidate.t) : list Summary.t :=
  map (project (Candidate.doc c)) (Candidate.authorDetails c).

(** [postSchema.statics.getTrending]; [limit] and [subject] are [None] when
    the caller leaves them out.  The [$limit] stage of MongoDB takes a
    positive integer: the server rejects [{ $limit: 0 }] and negative limits
    when it parses the pipeline ("the limit must be positive"), before it
    reads a document. *)
Definition getTrending (limit : option Z) (subject : option string)
    (now : Time) (w : World) : Result (list Summary.t) :=
  let limit := default 10 limit in
  if limit <=? 0 then Err (MongoServerError "the limit must be positive")
  else
    let matched := filter (fun p => matches subject p = true)
                          (snd <$> map_to_list (posts w)) in
    match mapResult (addFields now) matched with
    | Err e => Err e
    | Ok cands =>
        let sorted := sort_desc Candidate.trendingScore cands in
        let limited := firstn (Z.to_nat limit) sorted in
        Ok (flat_map unwind_project (map (lookup_author w) limited))
    end.

(** The trending score of a result, from the fields the projection keeps. *)
Definition summary_trendingScore (now : Time) (s : Summary.t) : Q :=
  ((num (Summary.likesCount s) * 2 + num (Summary.savesCount s) * 3
    + num (Summary.views s) * (1 # 10) + Rating.average (Summary.rating s) * 20)
   / (1 + inject_Z (now - Summary.publishedAt s) / inject_Z 86400000))%Q.

(** The trending score as the spec words it: the popularity score, with its
    comment term, over one plus the age in days. *)
Definition spec_trendingScore (w : World) (now : Time) (p : Post.t) : Q :=
  (Post.popularityScore (populate_commentsCount w p)
   / (1 + inject_Z (now - Post.publishedAt p) / inject_Z 86400000))%Q.

(** ** The numeric code on binary64 numbers

    The same expressions as [Post.popularityScore] and
    [Rating.average_setter], on the floating-point numbers JavaScript
    computes with. *)
Module Binary64.
Definition of_Z (z : Z) : float :=
  if z <? 0 then PrimFloat.opp (PrimFloat.of_uint63 (Uint63.of_Z (- z)))
  else PrimFloat.of_uint63 (Uint63.of_Z z).

Definition of_N (n : N) : float := of_Z (Z.of_N n).

(** The number a decimal literal or a quotient of two integers denotes. *)
Definition of_Q (q : Q) : float := (of_Z (Qnum q) / of_Z (Zpos (Qden q)))%float.

(** [Math.round]: exact on the binary expansion [m * 2^e] of its argument. *)
Definition Math_round (x : float) : float :=
  match Prim2SF x with
  | S754_finite s m e =>
      if 0 <=? e then x
      else
        let d := 2 ^ (- e) in
        let q := Zpos m / d in
        let r := Zpos m mod d in
        if s
        then PrimFloat.opp (of_Z (q + (if d <? 2 * r then 1 else 0)))
        else of_Z (q + (if d <=? 2 * r then 1 else 0))
  | _ => x
  end.

Definition popularityScore (p : Post.t) : float :=
  let likesWeight := (of_N (Post.likesCount p) * 2)%float in
  let savesWeight := (of_N (Post.savesCount p) * 3)%float in
  let commentsWeight := (of_N (default 0%N (Post.commentsCount p)) * of_Q (15 # 10))%float in
  let viewsWeight := (of_N (Post.views p) * of_Q (1 # 10))%float in
  let ratingWeight := (of_Q (Rating.average (Post.rating p)) * 20)%float in
  (likesWeight + savesWeight + commentsWeight + viewsWeight + ratingWeight)%float.

Definition average_setter (val : float) : float := (Math_round (val * 10) / 10)%float.

(** The average [addRating] assigns for a histogram. *)
Definition recalculated_average (d : Details.t) : float :=
  average_setter (of_N (weighted_total d) / of_N (values_total d))%float.

(** The means between 1 and 5 that lie half-way between two one-decimal
    numbers, (2k+1)/20 for k = 10..49, each with the setter's result and
    with (k+1)/10, the result of rounding the half up. *)
Definition halfway_means : list (float * float) :=
  map (fun k => (average_setter (of_Q ((2 * k + 1) # 20)), of_Q ((k + 1) # 10)))
      (map Z.of_nat (seq 10 40)).
End Binary64.

(** ** Sample documents *)

Definition sample_rating : Rating.t := Rating.mk (45 # 10) 2 (Details.mk 0 0 0 1 1).

(** A stored, published post with 3 likes, 2 saves, 50 views and an average
    rating of 4.5. *)
Definition sample_post : Post.t :=
  Post.mk 1%N "Limits and continuity" None
    "A short summary of limits, continuity and the squeeze theorem." None
    7%N "Amal" PostType.question "math" ["calculus"]
    [11; 12; 13]%N [11; 12]%N 50%N [ViewEntry.mk 11%N 1000] sample_rating
    PostStatus.published 0 0 false None None false [].

(** A second published post, half a day old, with little engagement. *)
Definition sample_post2 : Post.t :=
  Post.mk 2%N "Newton's second law" None
    "Worked examples on force, mass and acceleration." None
    7%N "Amal" PostType.summary "physics" []
    [11]%N [] 10%N [] (Rating.mk 0 0 (Details.mk 0 0 0 0 0))
    PostStatus.published 43200000 43200000 false None None false [].

Definition sample_user : User.t := User.mk "Amal" "avatar.png" (User.mk_stats 1 0).

(** A stored comment of the sample post, with the given id and depth. *)
Definition sample_comment (id : ObjectId) (depth : N) : Comment.t :=
  Comment.mk id "first draft" None 7%N "Amal" 1%N None depth [] CommentStatus.active
    false false [] false [].

Definition sample_world : World :=
  mkWorld (<[ 2%N := sample_post2 ]> {[ 1%N := sample_post ]})
          (<[ 21%N := sample_comment 21%N 0%N ]> (<[ 22%N := sample_comment 22%N 5%N ]>
           (<[ 23%N := sample_comment 23%N 1%N ]> (<[ 24%N := sample_comment 24%N 2%N ]> ∅))))
          {[ 7%N := sample_user ]}.

Definition sample_now : Time := 86400000.

(** ** The [readTime] virtual *)

(** [s.split(/\s+/)]: the pieces between the maximal runs of white space;
    [cur] is the piece being read, [in_ws] tells that the last character
    was white space.  A leading or trailing run leaves an empty piece, and
    the empty string splits into one empty piece. *)
Fixpoint split_ws (cur : string) (in_ws : bool) (s : string) : list string :=
  match s with
  | EmptyString => [cur]
  | String c rest =>
      if is_space c
      then if in_ws then split_ws cur true rest
           else cur :: split_ws EmptyString true rest
      else split_ws (cur ++ String c EmptyString) false rest
  end.

Definition split_whitespace (s : string) : list string := split_ws EmptyString false s.

Definition readTime (p : Post.t) : Z :=
  let wordsPerMinute := 200%N in
  let wordCount := N.of_nat (length (split_whitespace (Post.content p))) in
  Qceiling (num wordCount / num wordsPerMinute).

(** ** A run of ratings *)

(** [addRating] called once per element of [ratings] on the same document;
    a call that throws leaves the document to the next call. *)
Fixpoint addRatings (ratings : list (ObjectId * Z)) (now : Time) (s : Post.t * World)
  : Post.t * World :=
  match ratings with
  | [] => s
  | (userId, ratingValue) :: rest =>
      addRatings rest now (snd (addRating userId ratingValue now s))
  end.


(** ** The User model: rank and top contributors *)

(** The user document with the paths the [rank] and [totalContributions]
    virtuals and [getTopContributors] read. *)
Module Profile.
Record t : Type := mk {
  displayName : string;
  avatar : string;
  points : Z;
  badges : list string;
  stats : User.stats_t;
  isActive : bool
}.

Definition totalContributions (u : t) : N :=
  (User.postsCount (stats u) + User.commentsCount (stats u))%N.

Definition rank (u : t) : string :=
  if points u >=? 10000 then "legend"
  else if points u >=? 5000 then "master"
  else if points u >=? 2000 then "expert"
  else if points u >=? 1000 then "advanced"
  else if points u >=? 500 then "intermediate"
  else if points u >=? 100 then "beginner"
  else "newbie".
End Profile.

(** The position of a rank name on the ladder of [Profile.rank]. *)
Definition rank_level (r : string) : nat :=
  if String.eqb r "legend" then 6
  else if String.eqb r "master" then 5
  else if String.eqb r "expert" then 4
  else if String.eqb r "advanced" then 3
  else if String.eqb r "intermediate" then 2
  else if String.eqb r "beginner" then 1
  else 0.

(** The documents of the [$project] of [getTopContributors]. *)
Module Contributor.
Record t : Type := mk {
  displayName : string;
  avatar : string;
  points : Z;
  badges : list string;
  stats : User.stats_t;
  totalContributions : N
}.
End Contributor.

Definition project_contributor (u : Profile.t) : Contributor.t :=
  Contributor.mk (Profile.displayName u) (Profile.avatar u) (Profile.points u)
    (Profile.badges u) (Profile.stats u)
    (User.postsCount (Profile.stats u) + User.commentsCount (Profile.stats u))%N.

(** [userSchema.statics.getTopContributors] over the user collection. *)
Definition getTopContributors (limit : option Z) (profiles : gmap ObjectId Profile.t)
  : Result (list Contributor.t) :=
  let limit := default 10 limit in
  if limit <=? 0 then Err (MongoServerError "the limit must be positive")
  else
    let matched := filter (fun u => Profile.isActive u = true)
                          (snd <$> map_to_list profiles) in
    let projected := map project_contributor matched in
    let sorted := sort_desc (fun c => inject_Z (Contributor.points c)) projected in
    Ok (firstn (Z.to_nat limit) sorted).

(** ** server.js: the Socket.IO handlers *)

Definition SocketId : Type := N.

(** The payload of a client event, with the properties the handlers read;
    a property the client left out is [None]. *)
Module Payload.
Record t : Type := mk {
  postId : option string;
  userId : option string;
  userName : option string;
  body : string
}.
End Payload.

Inductive ClientEvent : Type :=
| join_user (userId : option string)
| join_post (postId : option string)
| new_comment (data : Payload.t)
| post_like (data : Payload.t)
| send_notification (data : Payload.t)
| typing (data : Payload.t)
| disconnect.

Inductive ServerEvent : Type :=
| comment_added (data : Payload.t)
| post_liked (data : Payload.t)
| receive_notification (data : Payload.t)
| user_typing (userId userName : option string).

(** A value inside a template literal. *)
Definition interpolate (v : option string) : string := default "undefined"%string v.

Definition user_room (userId : option string) : string := ("user_" ++ interpolate userId)%string.
Definition post_room (postId : option string) : string := ("post_" ++ interpolate postId)%string.

(** The rooms that handlers have made sockets join. *)
Definition members (rooms : gmap string (gset SocketId)) (room : string) : gset SocketId :=
  default ∅ (rooms !! room).

(** [socket.join(room)]. *)
Definition join (socket : SocketId) (room : string) (rooms : gmap string (gset SocketId))
  : gmap string (gset SocketId) :=
  <[room := {[socket]} ∪ members rooms room]> rooms.

(** What Socket.IO does itself when a socket disconnects: the socket leaves
    every room (the handler of the source only logs). *)
Definition leave_all (socket : SocketId) (rooms : gmap string (gset SocketId))
  : gmap string (gset SocketId) :=
  (fun sockets => sockets ∖ {[socket]}) <$> rooms.

(** [io.to(room).emit(ev)]: to every socket of the room;
    [socket.to(room).emit(ev)]: to every socket of the room but the sender. *)
Definition io_to_emit (rooms : gmap string (gset SocketId)) (room : string) (ev : ServerEvent)
  : list (SocketId * ServerEvent) :=
  map (fun s => (s, ev)) (elements (members rooms room)).

Definition socket_to_emit (socket : SocketId) (rooms : gmap string (gset SocketId))
    (room : string) (ev : ServerEvent) : list (SocketId * ServerEvent) :=
  map (fun s => (s, ev)) (elements (members rooms room ∖ {[socket]})).

(** The handlers registered in [io.on('connection', ...)], for an event of
    [socket]: the rooms afterwards and the messages sent. *)
Definition on_event (socket : SocketId) (ev : ClientEvent)
    (rooms : gmap string (gset SocketId))
  : gmap string (gset SocketId) * list (SocketId * ServerEvent) :=
  match ev with
  | join_user userId => (join socket (user_room userId) rooms, [])
  | join_post postId => (join socket (post_room postId) rooms, [])
  | new_comment data =>
      (rooms, io_to_emit rooms (post_room (Payload.postId data)) (comment_added data))
  | post_like data =>
      (rooms, io_to_emit rooms (post_room (Payload.postId data)) (post_liked data))
  | send_notification data =>
      if truthy_opt_string (Payload.userId data)
      then (rooms, io_to_emit rooms (user_room (Payload.userId data))
                     (receive_notification data))
      else (rooms, [])
  | typing data =>
      (rooms, socket_to_emit socket rooms (post_room (Payload.postId data))
                (user_typing (Payload.userId data) (Payload.userName data)))
  | disconnect => (leave_all socket rooms, [])
  end.

(** A trace of client events, from the rooms and messages so far. *)
Fixpoint run_events (trace : list (SocketId * ClientEvent))
    (st : gmap string (gset SocketId) * list (SocketId * ServerEvent))
  : gmap string (gset SocketId) * list (SocketId * ServerEvent) :=
  match trace with
  | [] => st
  | (socket, ev) :: rest =>
      let r := on_event socket ev (fst st) in
      run_events rest (fst r, snd st ++ snd r)
  end.

(** The room a client event asks to join, if it is a join. *)
Definition joined_room (ev : ClientEvent) : option string :=
  match ev with
  | join_user userId => Some (user_room userId)
  | join_post postId => Some (post_room postId)
  | _ => None
  end.

(** ** server.js: the error handling middleware *)

Module ErrorValue.
Record t : Type := mk {
  statusCode : option Z;
  message : string;
  stack : string
}.
End ErrorValue.

Module ErrorResponse.
Record t : Type := mk {
  code : Z;
  status : string;
  message : string;
  stack : option string
}.
End ErrorResponse.



(** ** More sample documents *)

Definition sample_profiles : gmap ObjectId Profile.t :=
  <[ 7%N := Profile.mk "Amal" "a.png" 2500 [] (User.mk_stats 3 4) true ]>
  (<[ 8%N := Profile.mk "Badr" "b.png" 12000 [] (User.mk_stats 9 1) true ]>
   (<[ 9%N := Profile.mk "Chams" "c.png" 99999 [] (User.mk_stats 0 0) false ]> ∅)).

(** A new draft that does not pass validation: title and content are too
    short. *)
Definition sample_draft : Post.t :=
  Post.mk 3%N "Note" None "todo" None 7%N "Amal" PostType.idea "math" []
    [] [] 0%N [] (Rating.mk 0 0 (Details.mk 0 0 0 0 0))
    PostStatus.draft 0 0 false None None true ["title"; "content"]%string.

(** * Properties *)

(** ** Popularity score *)

(** Without a populated [commentsCount] the comment term is zero. *)
Lemma popularityScore_unpopulated (p : Post.t) :
  Post.commentsCount p = None ->
  (Post.popularityScore p ==
   num (Post.likesCount p) * 2 + num (Post.savesCount p) * 3
   + num (Post.views p) * (1 # 10) + Rating.average (Post.rating p) * 20)%Q.
Proof.
  intros Hc. unfold Post.popularityScore. rewrite Hc. simpl. unfold num at 3. simpl. ring.
Qed.

(** A document whose [commentsCount] is not populated scores without its
    comments: the sample post has four comments and scores 107, where the
    formula with the number of comments gives 113. *)
Lemma popularityScore_unpopulated_sample :
  Post.commentsCount sample_post = None
  /\ countComments sample_world (Post._id sample_post) = 4%N
  /\ (Post.popularityScore sample_post == 107)%Q
  /\ (spec_popularityScore sample_world sample_post == 113)%Q
  /\ ~ (Post.popularityScore sample_post == spec_popularityScore sample_world sample_post)%Q.
Proof.
  split; [reflexivity |]. split; [reflexivity |]. split; [reflexivity |].
  split; [reflexivity |]. vm_compute. discriminate.
Qed.

(** C1 (amended). The popularity score of every post is
    likeCount*2 + saveCount*3 + c*1.5 + views*0.1 + rating.average*20,
    where c is the [commentsCount] of the document, 0 when it is not
    populated; on a populated document c is the number of comments of the
    post; a post with 3 likes, 2 saves, 50 views, average rating 4.5 and
    [commentsCount] 4 scores 113, in exact arithmetic and in binary64
    arithmetic alike. *)
Theorem popularityScore_formula :
  (forall p : Post.t,
     (Post.popularityScore p ==
      num (Post.likesCount p) * 2 + num (Post.savesCount p) * 3
      + num (default 0%N (Post.commentsCount p)) * (15 # 10)
      + num (Post.views p) * (1 # 10) + Rating.average (Post.rating p) * 20)%Q)
  /\ (forall p : Post.t, Post.commentsCount p = None ->
        (Post.popularityScore p ==
         num (Post.likesCount p) * 2 + num (Post.savesCount p) * 3
         + num (Post.views p) * (1 # 10) + Rating.average (Post.rating p) * 20)%Q)
  /\ (forall (w : World) (p : Post.t),
        (Post.popularityScore (populate_commentsCount w p) ==
         num (Post.likesCount p) * 2 + num (Post.savesCount p) * 3
         + num (countComments w (Post._id p)) * (15 # 10)
         + num (Post.views p) * (1 # 10) + Rating.average (Post.rating p) * 20)%Q)
  /\ (forall p : Post.t,
        Post.likesCount p = 3%N -> Post.savesCount p = 2%N -> Post.views p = 50%N ->
        (Rating.average (Post.rating p) == 45 # 10)%Q -> Post.commentsCount p = Some 4%N ->
        (Post.popularityScore p == 113)%Q)
  /\ Binary64.popularityScore (populate_commentsCount sample_world sample_post) = 113%float.
Proof.
  split; [| split; [| split; [| split]]].
  - intros p. unfold Post.popularityScore. cbv zeta. ring.
  - apply popularityScore_unpopulated.
  - intros w p. unfold Post.popularityScore, populate_commentsCount. simpl.
    unfold Post.likesCount, Post.savesCount. simpl. ring.
  - intros p Hl Hs Hv Ha Hc. unfold Post.popularityScore.
    rewrite Hl, Hs, Hv, Hc, Ha. reflexivity.
  - vm_compute. reflexivity.
Qed.

Lemma popularityScore_formula_witness :
  Post.likesCount sample_post = 3%N
  /\ Post.commentsCount (populate_commentsCount sample_world sample_post) = Some 4%N
  /\ (Post.popularityScore (populate_commentsCount sample_world sample_post) == 113)%Q.
Proof.
  split; [reflexivity |]. split; [reflexivity |].
  apply (proj1 (proj2 (proj2 (proj2 popularityScore_formula)))
           (populate_commentsCount sample_world sample_post));
    try reflexivity.
Defined.

(** ** [save] *)

Lemma save_run (now : Time) (p : Post.t) (w : World) :
  save now (p, w) =
  match validatePost p with
  | Ok _ =>
      let doc := Post.reset_tracking (postPreSave now p) in
      (Ok tt, (doc, postPostSave doc (storePost doc w)))
  | Err e => (Err e, (p, w))
  end.
Proof.
  unfold save, bind, get, modify, throw. simpl.
  destruct (validatePost p); reflexivity.
Qed.

Lemma save_ok (now : Time) (p : Post.t) (w : World) :
  validatePost p = Ok tt -> fst (save now (p, w)) = Ok tt.
Proof. intros H. rewrite save_run, H. reflexivity. Qed.

Lemma save_ok_inv (now : Time) (p : Post.t) (w : World) :
  fst (save now (p, w)) = Ok tt -> validatePost p = Ok tt.
Proof.
  rewrite save_run. destruct (validatePost p) as [[]|e]; simpl; congruence.
Qed.

(** The pre-save hook touches only [slug], [excerpt] and [lastActivity]. *)
Lemma postPreSave_frame (now : Time) (p : Post.t) :
  let p' := postPreSave now p in
  Post.views p' = Post.views p /\ Post.viewHistory p' = Post.viewHistory p
  /\ Post.rating p' = Post.rating p /\ Post._id p' = Post._id p
  /\ Post.lastActivity p' = now.
Proof.
  unfold postPreSave.
  destruct (Post.isModified "title" p);
    destruct (negb (truthy_opt_string (Post.excerpt _)) && truthy_string (Post.content _));
    simpl; repeat split; reflexivity.
Qed.

(** In memory, [save] leaves the counters, the history and the rating of the
    document as they are, whether it succeeds or not. *)
Lemma save_frame (now : Time) (p : Post.t) (w : World) :
  let p' := fst (snd (save now (p, w))) in
  Post.views p' = Post.views p /\ Post.viewHistory p' = Post.viewHistory p
  /\ Post.rating p' = Post.rating p /\ Post._id p' = Post._id p.
Proof.
  rewrite save_run. destruct (validatePost p); simpl; [| tauto].
  destruct (postPreSave_frame now p) as (Hv & Hh & Hr & Hi & _).
  repeat split; assumption.
Qed.

Lemma validatePost_Ok_iff (p : Post.t) :
  validatePost p = Ok tt <->
  len_between 5 200 (Post.title p) = true
  /\ len_between 10 10000 (Post.content p) = true
  /\ match Post.excerpt p with Some e => (strlen e <=? 300)%N | None => true end = true
  /\ truthy_string (Post.authorName p) = true
  /\ existsb (String.eqb (Post.subject p)) subjects = true
  /\ forallb (fun t => (strlen t <=? 20)%N) (Post.tags p) = true
  /\ (Qle_bool 0 (Rating.average (Post.rating p))
      && Qle_bool (Rating.average (Post.rating p)) 5) = true.
Proof.
  unfold validatePost, first_error. cbn [find fst snd negb].
  destruct (len_between 5 200 _); cbn [negb]; [| split; [discriminate | intros (? & _); discriminate]].
  destruct (len_between 10 10000 _); cbn [negb]; [| split; [discriminate | intros (_ & ? & _); discriminate]].
  destruct (match Post.excerpt p with Some _ => _ | None => _ end); cbn [negb];
    [| split; [discriminate | intros (_ & _ & ? & _); discriminate]].
  destruct (truthy_string _); cbn [negb];
    [| split; [discriminate | intros (_ & _ & _ & ? & _); discriminate]].
  destruct (existsb _ subjects); cbn [negb];
    [| split; [discriminate | intros (_ & _ & _ & _ & ? & _); discriminate]].
  destruct (forallb _ _); cbn [negb];
    [| split; [discriminate | intros (_ & _ & _ & _ & _ & ? & _); discriminate]].
  destruct (Qle_bool 0 _ && Qle_bool _ 5); cbn [negb];
    [| split; [discriminate | intros (_ & _ & _ & _ & _ & _ & ?); discriminate]].
  split; [intros _; repeat split | reflexivity].
Qed.

(** ** The rating histogram *)

Lemma values_total_sum (d : Details.t) :
  values_total d = (Details.d1 d + Details.d2 d + Details.d3 d + Details.d4 d + Details.d5 d)%N.
Proof. unfold values_total. simpl. lia. Qed.

Lemma weighted_total_sum (d : Details.t) :
  weighted_total d =
  (1 * Details.d1 d + 2 * Details.d2 d + 3 * Details.d3 d + 4 * Details.d4 d
   + 5 * Details.d5 d)%N.
Proof. unfold weighted_total. simpl. lia. Qed.

Lemma rating_value_cases (v : Z) :
  1 <= v <= 5 -> v = 1 \/ v = 2 \/ v = 3 \/ v = 4 \/ v = 5.
Proof. lia. Qed.

Ltac rating_cases Hv :=
  destruct (rating_value_cases _ Hv) as [-> | [-> | [-> | [-> | ->]]]].

Lemma Details_get_in_range (v : Z) (d : Details.t) :
  1 <= v <= 5 -> exists n, Details.get v d = Some n.
Proof.
  intros Hv. rating_cases Hv; simpl; eauto.
Qed.

Lemma Details_get_set_eq (v : Z) (x : N) (d : Details.t) :
  1 <= v <= 5 -> Details.get v (Details.set v x d) = Some x.
Proof.
  intros Hv. rating_cases Hv; reflexivity.
Qed.

Lemma Details_get_set_ne (k v : Z) (x : N) (d : Details.t) :
  k <> v -> Details.get k (Details.set v x d) = Details.get k d.
Proof.
  intros Hne.
  destruct (Z.eq_dec v 1) as [-> | ?]; [| destruct (Z.eq_dec v 2) as [-> | ?];
    [| destruct (Z.eq_dec v 3) as [-> | ?]; [| destruct (Z.eq_dec v 4) as [-> | ?];
    [| destruct (Z.eq_dec v 5) as [-> | ?]]]]].
  1-5: destruct k as [| [[[? | ? |] | [? | ? |] |] | [[? | ? |] | [? | ? |] |] |] | ?];
    try reflexivity; congruence.
  destruct v as [| [[[? | ? |] | [? | ? |] |] | [[? | ? |] | [? | ? |] |] |] | ?];
    try reflexivity; congruence.
Qed.

(** After an increment of a bucket the histogram is not empty, and the
    weighted sum lies between the total and five times the total. *)
Lemma totals_after_increment (v : Z) (d : Details.t) :
  1 <= v <= 5 ->
  let d' := Details.set v (default 0%N (Details.get v d) + 1)%N d in
  (1 <= values_total d')%N.
Proof.
  intros Hv d'. subst d'. rewrite values_total_sum.
  rating_cases Hv; simpl; lia.
Qed.

Lemma weighted_total_bounds (d : Details.t) :
  (values_total d <= weighted_total d <= 5 * values_total d)%N.
Proof. rewrite values_total_sum, weighted_total_sum. lia. Qed.

Lemma num_pos (n : N) : (1 <= n)%N -> (0 < num n)%Q.
Proof. intros H. unfold num. change 0%Q with (inject_Z 0). rewrite <- Zlt_Qlt. lia. Qed.

Lemma num_le (a b : N) : (a <= b)%N -> (num a <= num b)%Q.
Proof. intros H. unfold num. rewrite <- Zle_Qle. lia. Qed.

(** The rounded mean of a non-empty histogram lies in [1, 5]. *)
Lemma average_setter_bounds (s t : N) :
  (1 <= t)%N -> (t <= s <= 5 * t)%N ->
  (1 <= Rating.average_setter (num s / num t) <= 5)%Q.
Proof.
  intros Ht [Hlo Hhi].
  pose proof (num_pos t Ht) as Hpos.
  assert (H1 : (1 <= num s / num t)%Q).
  { apply Qle_shift_div_l; [assumption |]. rewrite Qmult_1_l. now apply num_le. }
  assert (H5 : (num s / num t <= 5)%Q).
  { apply Qle_shift_div_r; [assumption |].
    assert (E : (5 * num t == num (5 * t))%Q).
    { unfold num. rewrite N2Z.inj_mul, inject_Z_mult. reflexivity. }
    rewrite E. now apply num_le. }
  assert (Hf : 10 <= Qfloor (num s / num t * 10 + (1 # 2)) <= 50).
  { split.
    - change 10 with (Qfloor (1 * 10 + (1 # 2))). apply Qfloor_resp_le.
      apply Qplus_le_compat; [| apply Qle_refl].
      apply Qmult_le_compat_r; [assumption | discriminate].
    - change 50 with (Qfloor (5 * 10 + (1 # 2))). apply Qfloor_resp_le.
      apply Qplus_le_compat; [| apply Qle_refl].
      apply Qmult_le_compat_r; [assumption | discriminate]. }
  unfold Rating.average_setter, Math_round.
  set (k := Qfloor (num s / num t * 10 + (1 # 2))) in *. split.
  - apply Qle_shift_div_l; [reflexivity |]. rewrite Qmult_1_l.
    change 10%Q with (inject_Z 10). rewrite <- Zle_Qle. lia.
  - apply Qle_shift_div_r; [reflexivity |].
    change (5 * 10)%Q with (inject_Z 50). rewrite <- Zle_Qle. lia.
Qed.

(** On binary64 numbers the setter rounds the half-way means up, as the
    exact setter does. *)
Lemma binary64_halfway_means_round_up :
  forallb (fun m => PrimFloat.eqb (fst m) (snd m)) Binary64.halfway_means = true.
Proof. vm_compute. reflexivity. Qed.

(** ** [addRating] *)

(** Out of range, [addRating] throws before it touches anything. *)
Lemma addRating_out_of_range (userId : ObjectId) (v : Z) (now : Time)
    (p : Post.t) (w : World) :
  v < 1 \/ 5 < v ->
  addRating userId v now (p, w) = (Err (JsError "Rating must be between 1 and 5"), (p, w)).
Proof.
  intros Hv. unfold addRating.
  destruct (Z.ltb_spec v 1); [reflexivity |].
  destruct (Z.gtb_spec v 5); [reflexivity | lia].
Qed.

(** In range, [addRating] is [save] on the document with the recomputed
    rating; the other validated paths are as before. *)
Lemma addRating_in_range (userId : ObjectId) (v : Z) (now : Time)
    (p : Post.t) (w : World) :
  1 <= v <= 5 ->
  exists p1 : Post.t,
    addRating userId v now (p, w) = save now (p1, w)
    /\ (let d' := Details.set v (default 0%N (Details.get v (Rating.details (Post.rating p))) + 1)%N
                    (Rating.details (Post.rating p)) in
        Post.rating p1 =
        Rating.mk (Rating.average_setter (num (weighted_total d') / num (values_total d')))
                  (values_total d') d')
    /\ Post.title p1 = Post.title p /\ Post.content p1 = Post.content p
    /\ Post.excerpt p1 = Post.excerpt p /\ Post.authorName p1 = Post.authorName p
    /\ Post.subject p1 = Post.subject p /\ Post.tags p1 = Post.tags p.
Proof.
  intros Hv. unfold addRating.
  destruct (Z.ltb_spec v 1); [lia |]. destruct (Z.gtb_spec v 5); [lia |].
  cbn [orb]. unfold bind, modify, get. cbn [fst snd].
  eexists. split; [reflexivity |]. cbn. repeat split; reflexivity.
Qed.

(** A valid post stays valid under [addRating]: the new average is in range. *)
Lemma addRating_keeps_valid (userId : ObjectId) (v : Z) (now : Time)
    (p : Post.t) (w : World) :
  1 <= v <= 5 -> validatePost p = Ok tt ->
  fst (addRating userId v now (p, w)) = Ok tt.
Proof.
  intros Hv Hvalid.
  destruct (addRating_in_range userId v now p w Hv)
    as (p1 & -> & Hr & Ht & Hc & He & Ha & Hs & Hg).
  apply save_ok. apply validatePost_Ok_iff.
  apply validatePost_Ok_iff in Hvalid.
  destruct Hvalid as (V1 & V2 & V3 & V4 & V5 & V6 & _).
  rewrite Ht, Hc, He, Ha, Hs, Hg. repeat split; try assumption.
  rewrite Hr. cbn [Rating.average].
  pose proof (totals_after_increment v (Rating.details (Post.rating p)) Hv) as Hpos.
  cbv zeta in Hpos.
  pose proof (average_setter_bounds _ _ Hpos (weighted_total_bounds _)) as [Hlo Hhi].
  apply andb_true_intro. split; apply Qle_bool_iff; [| assumption].
  apply Qle_trans with 1%Q; [discriminate | assumption].
Qed.

(** C3. After [addRating] with a value in 1..5, the bucket of that value has
    grown by exactly one and the other buckets are as before, [rating.count]
    is the sum of the histogram, and [rating.average] is the histogram's
    weighted sum over the count, rounded to one decimal; when the histogram
    has become {5:2, 3:1} the count is 3 and the average 4.3 (also on
    binary64 numbers). *)
Theorem addRating_recomputes_rating (userId : ObjectId) (v : Z) (now : Time)
    (p : Post.t) (w : World) :
  1 <= v <= 5 ->
  let r := Post.rating p in
  let r' := Post.rating (fst (snd (addRating userId v now (p, w)))) in
  let d' := Rating.details r' in
  (exists n : N, Details.get v (Rating.details r) = Some n
                 /\ Details.get v d' = Some (n + 1)%N)
  /\ (forall k : Z, k <> v -> Details.get k d' = Details.get k (Rating.details r))
  /\ Rating.count r' =
     (Details.d1 d' + Details.d2 d' + Details.d3 d' + Details.d4 d' + Details.d5 d')%N
  /\ (Rating.average r' ==
      Math_round
        (num (1 * Details.d1 d' + 2 * Details.d2 d' + 3 * Details.d3 d'
              + 4 * Details.d4 d' + 5 * Details.d5 d')
         / num (Rating.count r') * 10) / 10)%Q
  /\ (d' = Details.mk 0 0 1 0 2 ->
      Rating.count r' = 3%N /\ (Rating.average r' == 43 # 10)%Q)
  /\ Binary64.recalculated_average (Details.mk 0 0 1 0 2) = Binary64.of_Q (43 # 10).
Proof.
  intros Hv r r' d'.
  destruct (addRating_in_range userId v now p w Hv) as (p1 & Hrun & Hr & _).
  assert (Er' : r' = Post.rating p1).
  { subst r'. rewrite Hrun. apply (save_frame now p1 w). }
  cbv zeta in Hr. rewrite Hr in Er'.
  assert (Ed' : d' = Details.set v (default 0%N (Details.get v (Rating.details r)) + 1)%N
                       (Rating.details r)).
  { subst d'. rewrite Er'. reflexivity. }
  assert (Ecount : Rating.count r' = values_total d').
  { rewrite Ed'. rewrite Er'. reflexivity. }
  assert (Eavg : Rating.average r' =
                 Rating.average_setter (num (weighted_total d') / num (values_total d'))).
  { rewrite Ed'. rewrite Er'. reflexivity. }
  split; [| split; [| split; [| split; [| split]]]].
  - destruct (Details_get_in_range v (Rating.details r) Hv) as [n Hn].
    exists n. split; [assumption |].
    rewrite Ed', Hn. cbn [default]. now apply Details_get_set_eq.
  - intros k Hk. rewrite Ed'. now apply Details_get_set_ne.
  - rewrite Ecount. apply values_total_sum.
  - rewrite Eavg, Ecount, <- weighted_total_sum. reflexivity.
  - intros Hd. rewrite Eavg, Ecount, Hd. split; reflexivity.
  - vm_compute. reflexivity.
Qed.

Lemma addRating_recomputes_rating_witness :
  let p := Post.set_rating "rating" (Rating.mk 4 2 (Details.mk 0 0 1 0 1)) sample_post in
  let r' := Post.rating (fst (snd (addRating 11%N 5 sample_now (p, sample_world)))) in
  1 <= 5 <= 5 /\ Rating.details r' = Details.mk 0 0 1 0 2
  /\ Rating.count r' = 3%N /\ (Rating.average r' == 43 # 10)%Q.
Proof.
  intros p r'.
  assert (Hv : 1 <= 5 <= 5) by lia.
  split; [exact Hv |]. split; [reflexivity |].
  apply (proj1 (proj2 (proj2 (proj2 (proj2
           (addRating_recomputes_rating 11%N 5 sample_now p sample_world Hv)))))).
  reflexivity.
Defined.

(** C4. [addRating] throws its range error exactly when the value is below 1
    or above 5 (0 and 6 for instance), and then leaves the document and the
    collections untouched; for 1..5 it succeeds on a post that was valid. *)
Theorem addRating_range_check (userId : ObjectId) (v : Z) (now : Time)
    (p : Post.t) (w : World) :
  (fst (addRating userId v now (p, w)) = Err (JsError "Rating must be between 1 and 5")
   <-> v < 1 \/ 5 < v)
  /\ (v < 1 \/ 5 < v -> snd (addRating userId v now (p, w)) = (p, w))
  /\ (1 <= v <= 5 -> validatePost p = Ok tt ->
      fst (addRating userId v now (p, w)) = Ok tt)
  /\ (validatePost p = Ok tt ->
      (fst (addRating userId v now (p, w)) = Ok tt <-> 1 <= v <= 5))
  /\ addRating userId 0 now (p, w) = (Err (JsError "Rating must be between 1 and 5"), (p, w))
  /\ addRating userId 6 now (p, w) = (Err (JsError "Rating must be between 1 and 5"), (p, w)).
Proof.
  split; [| split; [| split; [| split; [| split]]]].
  - split.
    + intros Herr. destruct (Z_lt_le_dec v 1) as [? | Hlo]; [now left |].
      destruct (Z_lt_le_dec 5 v) as [? | Hhi]; [now right |]. exfalso.
      destruct (addRating_in_range userId v now p w (conj Hlo Hhi)) as (p1 & Hrun & _).
      rewrite Hrun, save_run in Herr.
      unfold validatePost, first_error in Herr.
      destruct (find _ _); simpl in Herr; discriminate.
    + intros Hv. now rewrite addRating_out_of_range.
  - intros Hv. now rewrite addRating_out_of_range.
  - apply addRating_keeps_valid.
  - intros Hvalid. split.
    + intros Hok. destruct (Z_lt_le_dec v 1) as [? | Hlo];
        [rewrite addRating_out_of_range in Hok by lia; discriminate |].
      destruct (Z_lt_le_dec 5 v) as [? | Hhi];
        [rewrite addRating_out_of_range in Hok by lia; discriminate |].
      lia.
    + intros Hv. now apply addRating_keeps_valid.
  - apply addRating_out_of_range. lia.
  - apply addRating_out_of_range. lia.
Qed.

Lemma addRating_range_check_witness :
  validatePost sample_post = Ok tt
  /\ fst (addRating 11%N 3 sample_now (sample_post, sample_world)) = Ok tt
  /\ snd (addRating 11%N 6 sample_now (sample_post, sample_world)) = (sample_post, sample_world).
Proof.
  pose proof (addRating_range_check 11%N 3 sample_now sample_post sample_world)
    as (_ & _ & Hok & _).
  pose proof (addRating_range_check 11%N 6 sample_now sample_post sample_world)
    as (_ & Hout & _).
  split; [reflexivity |]. split.
  - apply Hok; [lia | reflexivity].
  - apply Hout. right. lia.
Defined.

(** ** [incrementViews] *)

Lemma incrementViews_run (userId : option ObjectId) (now : Time) (p : Post.t) (w : World) :
  let p1 := Post.set_views (Post.views p + 1)%N p in
  let p2 :=
    match userId with
    | Some uid =>
        match find (recentViewBy uid now) (Post.viewHistory p) with
        | None => Post.set_viewHistory (Post.viewHistory p ++ [ViewEntry.mk uid now]) p1
        | Some _ => p1
        end
    | None => p1
    end in
  incrementViews userId now (p, w) = save now (p2, w).
Proof.
  unfold incrementViews, bind, modify, get, ret. cbn [fst snd].
  destruct userId as [uid |]; [| reflexivity].
  cbn [fst snd Post.viewHistory Post.set_views].
  destruct (find (recentViewBy uid now) (Post.viewHistory p)); reflexivity.
Qed.

Lemma find_recentView_none (uid : ObjectId) (now : Time) (h : list ViewEntry.t) :
  find (recentViewBy uid now) h = None <->
  (forall e, In e h -> ViewEntry.userId e = uid -> day_ms <= now - ViewEntry.viewedAt e).
Proof.
  split.
  - intros Hnone e Hin Hu.
    pose proof (find_none _ _ Hnone e Hin) as Hf. unfold recentViewBy in Hf.
    rewrite Hu, N.eqb_refl in Hf. cbn [andb] in Hf.
    apply Z.ltb_ge in Hf. exact Hf.
  - intros Hall. destruct (find (recentViewBy uid now) h) as [e |] eqn:Hf; [| reflexivity].
    exfalso. apply find_some in Hf. destruct Hf as [Hin Hrec].
    unfold recentViewBy in Hrec. apply andb_prop in Hrec. destruct Hrec as [Hu Ht].
    apply N.eqb_eq in Hu. apply Z.ltb_lt in Ht.
    specialize (Hall e Hin Hu). lia.
Qed.

(** C6. Every call of [incrementViews] raises [views] by exactly one.  With
    a user id, an entry (user, now) is appended to [viewHistory] exactly when
    no entry of that user is less than 24 hours old; otherwise, and without
    a user id, the history is unchanged.  On a valid post the call succeeds
    and the stored post carries the new counter. *)
Theorem incrementViews_effect (userId : option ObjectId) (now : Time)
    (p : Post.t) (w : World) :
  let r := incrementViews userId now (p, w) in
  let p' := fst (snd r) in
  Post.views p' = (Post.views p + 1)%N
  /\ (forall uid, userId = Some uid ->
        (forall e, In e (Post.viewHistory p) -> ViewEntry.userId e = uid ->
                   day_ms <= now - ViewEntry.viewedAt e) ->
        Post.viewHistory p' = Post.viewHistory p ++ [ViewEntry.mk uid now])
  /\ (forall uid e, userId = Some uid ->
        In e (Post.viewHistory p) -> ViewEntry.userId e = uid ->
        now - ViewEntry.viewedAt e < day_ms ->
        Post.viewHistory p' = Post.viewHistory p)
  /\ (userId = None -> Post.viewHistory p' = Post.viewHistory p)
  /\ (validatePost p = Ok tt ->
      fst r = Ok tt
      /\ exists stored, posts (snd (snd r)) !! Post._id p = Some stored
                        /\ Post.views stored = (Post.views p + 1)%N
                        /\ Post.viewHistory stored = Post.viewHistory p').
Proof.
  intros r p'. subst p' r. rewrite incrementViews_run. cbv zeta.
  set (p1 := Post.set_views (Post.views p + 1)%N p).
  set (p2 := match userId with Some _ => _ | None => _ end).
  destruct (save_frame now p2 w) as (Hv & Hh & _ & Hid).
  assert (Hv2 : Post.views p2 = (Post.views p + 1)%N).
  { subst p2. destruct userId as [uid |]; [| reflexivity].
    destruct (find _ _); reflexivity. }
  assert (Hid2 : Post._id p2 = Post._id p).
  { subst p2. destruct userId as [uid |]; [| reflexivity].
    destruct (find _ _); reflexivity. }
  split; [| split; [| split; [| split]]].
  - rewrite Hv. exact Hv2.
  - intros uid -> Hall. rewrite Hh. subst p2.
    apply find_recentView_none in Hall. rewrite Hall. reflexivity.
  - intros uid e -> Hin Hu Ht. rewrite Hh. subst p2.
    destruct (find (recentViewBy uid now) (Post.viewHistory p)) eqn:Hf; [reflexivity |].
    exfalso. pose proof (proj1 (find_recentView_none uid now _) Hf e Hin Hu). lia.
  - intros ->. rewrite Hh. reflexivity.
  - intros Hvalid.
    assert (Hvalid2 : validatePost p2 = Ok tt).
    { apply validatePost_Ok_iff. apply validatePost_Ok_iff in Hvalid.
      subst p2. destruct userId as [uid |]; [destruct (find _ _) |]; exact Hvalid. }
    rewrite save_run, Hvalid2 in *. cbn [fst snd] in *. split; [reflexivity |].
    eexists. split.
    + unfold postPostSave, storePost.
      destruct (PostStatus.eqb _ _); cbn [posts set_users set_posts];
        rewrite Hid, Hid2; apply lookup_insert_eq.
    + split; [| reflexivity].
      change (Post.views (Post.reset_tracking (postPreSave now p2)) = (Post.views p + 1)%N).
      rewrite Hv. exact Hv2.
Qed.

Lemma incrementViews_effect_witness :
  let e := ViewEntry.mk 11%N 1000 in
  let p' := fst (snd (incrementViews (Some 11%N) sample_now (sample_post, sample_world))) in
  In e (Post.viewHistory sample_post)
  /\ sample_now - ViewEntry.viewedAt e < day_ms
  /\ Post.viewHistory p' = Post.viewHistory sample_post
  /\ Post.views p' = 51%N.
Proof.
  intros e p'.
  pose proof (incrementViews_effect (Some 11%N) sample_now sample_post sample_world)
    as (Hviews & _ & Hrepeat & _).
  assert (Hin : In e (Post.viewHistory sample_post)) by (left; reflexivity).
  assert (Hlt : sample_now - ViewEntry.viewedAt e < day_ms) by reflexivity.
  split; [exact Hin |]. split; [exact Hlt |]. split.
  - exact (Hrepeat 11%N e eq_refl Hin eq_refl Hlt).
  - exact Hviews.
Defined.

(** ** [lastActivity] *)

(** C10. A save of a post that succeeds leaves [lastActivity] at the current
    time, in the document and in its stored version; so do the saves inside
    [incrementViews] and [addRating].  A save succeeds exactly when the
    document passes validation. *)
Theorem save_sets_lastActivity (now : Time) (p p' : Post.t) (w w' : World) :
  (save now (p, w) = (Ok tt, (p', w')) ->
   Post.lastActivity p' = now
   /\ exists stored, posts w' !! Post._id p = Some stored /\ Post.lastActivity stored = now)
  /\ (forall userId, incrementViews userId now (p, w) = (Ok tt, (p', w')) ->
        Post.lastActivity p' = now)
  /\ (forall userId v, addRating userId v now (p, w) = (Ok tt, (p', w')) ->
        Post.lastActivity p' = now)
  /\ (fst (save now (p, w)) = Ok tt <-> validatePost p = Ok tt).
Proof.
  assert (Hsave : forall q q' u u', save now (q, u) = (Ok tt, (q', u')) ->
            Post.lastActivity q' = now
            /\ exists stored, posts u' !! Post._id q = Some stored
                              /\ Post.lastActivity stored = now).
  { intros q q' u u' H. rewrite save_run in H.
    destruct (validatePost q) as [[] | e]; [| discriminate].
    cbv zeta in H. injection H as <- <-.
    destruct (postPreSave_frame now q) as (_ & _ & _ & Hid & Hla).
    split; [exact Hla |].
    exists (Post.set_commentsCount None (Post.reset_tracking (postPreSave now q))).
    split; [| exact Hla].
    unfold postPostSave, storePost.
    destruct (PostStatus.eqb _ _); cbn [posts set_users set_posts];
      change (Post._id (Post.reset_tracking (postPreSave now q)))
        with (Post._id (postPreSave now q));
      rewrite Hid; apply lookup_insert_eq. }
  split; [| split; [| split]].
  - apply Hsave.
  - intros userId H. rewrite incrementViews_run in H. cbv zeta in H.
    apply Hsave in H. tauto.
  - intros userId v H.
    destruct (Z_lt_le_dec v 1) as [? | Hlo];
      [rewrite addRating_out_of_range in H by lia; discriminate |].
    destruct (Z_lt_le_dec 5 v) as [? | Hhi];
      [rewrite addRating_out_of_range in H by lia; discriminate |].
    destruct (addRating_in_range userId v now p w (conj Hlo Hhi)) as (p1 & Hrun & _).
    rewrite Hrun in H. apply Hsave in H. tauto.
  - split; [apply save_ok_inv | apply save_ok].
Qed.

Lemma save_sets_lastActivity_witness :
  exists p' w',
    incrementViews (Some 11%N) sample_now (sample_post, sample_world) = (Ok tt, (p', w'))
    /\ Post.lastActivity sample_post = 0
    /\ Post.lastActivity p' = sample_now.
Proof.
  eexists. eexists. split; [vm_compute; reflexivity |]. split; [reflexivity |].
  refine (proj1 (proj2 (save_sets_lastActivity sample_now sample_post _ sample_world _))
            (Some 11%N) _).
  vm_compute. reflexivity.
Defined.

(** ** Comments: depth and edit history *)

Lemma saveComment_run (now : Time) (c : Comment.t) (w : World) :
  saveComment now (c, w) =
  match validateComment c with
  | Ok _ =>
      let doc := Comment.reset_tracking (commentPreSave now c) in
      (Ok tt, commentPostSave_depth (doc, commentPostSave now doc (storeComment doc w)))
  | Err e => (Err e, (c, w))
  end.
Proof.
  unfold saveComment, bind, get, modify, throw. simpl.
  destruct (validateComment c); reflexivity.
Qed.

Lemma validateComment_Ok_iff (c : Comment.t) :
  validateComment c = Ok tt <->
  len_between 1 2000 (Comment.content c) = true
  /\ truthy_string (Comment.authorName c) = true
  /\ (Comment.depth c <=? 5)%N = true.
Proof.
  unfold validateComment, first_error. cbn [find fst snd negb].
  destruct (len_between 1 2000 _); cbn [negb];
    [| split; [discriminate | intros (? & _); discriminate]].
  destruct (truthy_string _); cbn [negb];
    [| split; [discriminate | intros (_ & ? & _); discriminate]].
  destruct (Comment.depth c <=? 5)%N; cbn [negb];
    [| split; [discriminate | intros (_ & _ & ?); discriminate]].
  split; [intros _; repeat split | reflexivity].
Qed.

(** The post-save hook does not touch the comments collection. *)
Lemma commentPostSave_comments (now : Time) (doc : Comment.t) (w : World) :
  comments (commentPostSave now doc w) = comments w.
Proof.
  unfold commentPostSave. destruct (CommentStatus.eqb _ _); reflexivity.
Qed.

(** On a new document the pre-save hook only sets the provisional depth. *)
Lemma commentPreSave_new (now : Time) (c : Comment.t) :
  Comment.isNew c = true ->
  commentPreSave now c =
  match Comment.parentComment c with
  | Some _ => Comment.set_depth 1 c
  | None => c
  end.
Proof.
  intros Hnew. unfold commentPreSave.
  destruct (Comment.parentComment c); cbn [Comment.isNew Comment.set_depth];
    rewrite Hnew, andb_false_r; reflexivity.
Qed.

(** C5. A comment created with a parent comment gets depth
    min(parent.depth + 1, 5), a comment created without one gets depth 0;
    a reply to a comment of depth 5 is at depth 5.  The depth is that of the
    document and of its stored version.  The content counts after the
    [trim] setter; a reply whose parent is not in the collection keeps the
    depth 1 of the pre-save hook. *)
Theorem createComment_depth (id post author : ObjectId) (authorName content : string)
    (now : Time) (w : World) :
  len_between 1 2000 (trim content) = true -> truthy_string authorName = true ->
  comments w !! id = None ->
  (forall (parentId : ObjectId) (parent : Comment.t),
     comments w !! parentId = Some parent ->
     let r := createComment id post author authorName content (Some parentId) now w in
     fst r = Ok tt
     /\ Comment.depth (fst (snd r)) = N.min (Comment.depth parent + 1) 5
     /\ comments (snd (snd r)) !! id = Some (fst (snd r))
     /\ (Comment.depth parent = 5%N -> Comment.depth (fst (snd r)) = 5%N))
  /\ (let r := createComment id post author authorName content None now w in
      fst r = Ok tt /\ Comment.depth (fst (snd r)) = 0%N
      /\ comments (snd (snd r)) !! id = Some (fst (snd r)))
  /\ (forall parentId : ObjectId,
        parentId <> id -> comments w !! parentId = None ->
        let r := createComment id post author authorName content (Some parentId) now w in
        fst r = Ok tt /\ Comment.depth (fst (snd r)) = 1%N)
  /\ (forall parentComment : option ObjectId,
        Comment.content
          (fst (snd (createComment id post author authorName content parentComment now w)))
        = trim content).
Proof.
  intros Hlen Hname Hfresh.
  assert (Hvalid : forall parentComment,
            validateComment (Comment.new id content author authorName post parentComment)
            = Ok tt).
  { intros parentComment. apply validateComment_Ok_iff.
    cbn [Comment.new Comment.content Comment.authorName Comment.depth].
    split; [exact Hlen |]. split; [exact Hname | reflexivity]. }
  split; [| split; [| split]].
  - intros parentId parent Hparent r. subst r. unfold createComment.
    rewrite saveComment_run, Hvalid, commentPreSave_new by reflexivity. cbv zeta.
    assert (Hne : id <> parentId) by congruence.
    unfold commentPostSave_depth, specDepth. cbn [fst snd].
    rewrite commentPostSave_comments.
    cbn [Comment.new Comment.parentComment Comment.reset_tracking Comment.set_depth
         Comment._id storeComment comments set_comments].
    rewrite lookup_insert_ne by exact Hne. rewrite Hparent.
    cbn [Comment.depth].
    split; [reflexivity |]. split; [reflexivity |]. split.
    + apply lookup_insert_eq.
    + intros H5. rewrite H5. reflexivity.
  - intros r. subst r. unfold createComment.
    rewrite saveComment_run, Hvalid, commentPreSave_new by reflexivity. cbv zeta.
    unfold commentPostSave_depth, specDepth. cbn [fst snd].
    cbn [Comment.new Comment.parentComment Comment.reset_tracking Comment.set_depth
         Comment._id Comment.depth storeComment comments set_comments].
    split; [reflexivity |]. split; [reflexivity |].
    apply lookup_insert_eq.
  - intros parentId Hne Hmissing r. subst r. unfold createComment.
    rewrite saveComment_run, Hvalid, commentPreSave_new by reflexivity. cbv zeta.
    unfold commentPostSave_depth, specDepth. cbn [fst snd].
    rewrite commentPostSave_comments.
    cbn [Comment.new Comment.parentComment Comment.reset_tracking Comment.set_depth
         Comment._id storeComment comments set_comments].
    rewrite lookup_insert_ne by congruence. rewrite Hmissing.
    split; reflexivity.
  - intros parentComment. unfold createComment.
    rewrite saveComment_run, Hvalid, commentPreSave_new by reflexivity. cbv zeta.
    unfold commentPostSave_depth. cbn [fst snd].
    destruct parentComment; reflexivity.
Qed.

Lemma createComment_depth_witness :
  let r := createComment 30%N 1%N 7%N "Amal" "  a reply " (Some 22%N) sample_now sample_world in
  len_between 1 2000 (trim "  a reply ") = true
  /\ comments sample_world !! 22%N = Some (sample_comment 22%N 5%N)
  /\ fst r = Ok tt /\ Comment.depth (fst (snd r)) = 5%N
  /\ Comment.content (fst (snd r)) = "a reply"%string.
Proof.
  intros r.
  assert (Hparent : comments sample_world !! 22%N = Some (sample_comment 22%N 5%N))
    by reflexivity.
  pose proof (createComment_depth 30%N 1%N 7%N "Amal" "  a reply " sample_now sample_world
                eq_refl eq_refl eq_refl) as (Hreply & _ & _ & Hcontent).
  destruct (Hreply 22%N _ Hparent) as (Hok & _ & _ & H5).
  split; [reflexivity |]. split; [exact Hparent |]. split; [exact Hok |].
  split; [exact (H5 eq_refl) | exact (Hcontent (Some 22%N))].
Defined.

Lemma editContent_run (stash : bool) (newContent : string) (now : Time)
    (c : Comment.t) (w : World) :
  editContent stash newContent now (c, w) =
  saveComment now
    (Comment.assign_content newContent
       (if stash then Comment.set_previousContent (Some (Comment.content c)) c else c),
     w).
Proof. unfold editContent, bind, modify, ret. destruct stash; reflexivity. Qed.

(** The pre-save hook on an existing comment whose content was modified. *)
Lemma commentPreSave_edit (now : Time) (c : Comment.t) :
  Comment.isNew c = false -> Comment.isModified "content" c = true ->
  let c' := commentPreSave now c in
  Comment.edited c' = true
  /\ Comment.editHistory c' =
     Comment.editHistory c ++
     [EditEntry.mk (or_string (Comment._previousContent c) (Comment.content c))
                   now "User edit"].
Proof.
  intros Hnew Hmod. unfold commentPreSave.
  destruct (Comment.parentComment c).
  - replace (Comment.isModified "content" (Comment.set_depth 1 c)) with true
      by (symmetry; exact Hmod).
    cbn [Comment.isNew Comment.set_depth]. rewrite Hnew. cbn. split; reflexivity.
  - rewrite Hmod, Hnew. cbn. split; reflexivity.
Qed.

(** Without [_previousContent] the entry holds the new content: the claim
    that every edit records the content before the edit fails here. *)
Lemma editContent_unstashed_records_new_content :
  let c := sample_comment 21%N 0%N in
  let c' := fst (snd (editContent false "second draft" sample_now (c, sample_world))) in
  Comment.content c = "first draft"%string
  /\ Comment.editHistory c' = [EditEntry.mk "second draft" sample_now "User edit"]
  /\ Comment.editHistory c' <>
     Comment.editHistory c ++ [EditEntry.mk (Comment.content c) sample_now "User edit"].
Proof.
  cbv zeta. split; [reflexivity |]. split; [reflexivity |].
  vm_compute. discriminate.
Qed.

(** C7 (amended). Every edit of the content of an existing comment appends
    an entry with the time of the edit to [editHistory] and sets [edited];
    the entry holds the content the comment had before the edit when the
    caller kept that content in [_previousContent].  The new content counts
    after the [trim] setter. *)
Theorem editContent_records_stashed_content (stash : bool) (newContent : string)
    (now : Time) (c : Comment.t) (w : World) :
  Comment.isNew c = false ->
  validateComment c = Ok tt ->
  len_between 1 2000 (trim newContent) = true ->
  trim newContent <> Comment.content c ->
  let r := editContent stash newContent now (c, w) in
  fst r = Ok tt
  /\ Comment.content (fst (snd r)) = trim newContent
  /\ Comment.edited (fst (snd r)) = true
  /\ exists recorded : string,
       Comment.editHistory (fst (snd r)) =
       Comment.editHistory c ++ [EditEntry.mk recorded now "User edit"]
       /\ (stash = true -> recorded = Comment.content c)
       /\ (stash = false ->
           recorded = or_string (Comment._previousContent c) (trim newContent)).
Proof.
  intros Hnew Hvalid Hlen Hne r. subst r. rewrite editContent_run.
  set (c0 := if stash then Comment.set_previousContent (Some (Comment.content c)) c else c).
  set (c1 := Comment.assign_content newContent c0).
  apply validateComment_Ok_iff in Hvalid. destruct Hvalid as (Hc & Hn & Hd).
  assert (Hc0 : Comment.content c0 = Comment.content c /\ Comment.isNew c0 = Comment.isNew c
                /\ Comment.authorName c0 = Comment.authorName c
                /\ Comment.depth c0 = Comment.depth c
                /\ Comment.editHistory c0 = Comment.editHistory c).
  { subst c0. destruct stash; repeat split; reflexivity. }
  destruct Hc0 as (E1 & E2 & E3 & E4 & E5).
  assert (Hvalid1 : validateComment c1 = Ok tt).
  { apply validateComment_Ok_iff. subst c1.
    cbn [Comment.assign_content Comment.content Comment.authorName Comment.depth].
    rewrite E3, E4. auto. }
  assert (Hmod : Comment.isModified "content" c1 = true).
  { subst c1. unfold Comment.isModified.
    cbn [Comment.assign_content Comment.modifiedPaths]. rewrite E1.
    destruct (String.eqb_spec (trim newContent) (Comment.content c));
      [contradiction | reflexivity]. }
  assert (Hnew1 : Comment.isNew c1 = false) by (subst c1; cbn; now rewrite E2).
  assert (Htruthy : truthy_string (Comment.content c) = true).
  { unfold truthy_string.
    destruct (String.eqb_spec (Comment.content c) "") as [E |]; [| reflexivity].
    rewrite E in Hc. discriminate. }
  destruct (commentPreSave_edit now c1 Hnew1 Hmod) as [He Hh].
  rewrite saveComment_run, Hvalid1. cbv zeta.
  unfold commentPostSave_depth. cbn [fst snd].
  cbn [Comment.content Comment.editHistory Comment.edited Comment.reset_tracking
       Comment.set_depth].
  split; [reflexivity |]. split; [| split].
  - unfold commentPreSave.
    destruct (Comment.parentComment c1); destruct (_ && _); reflexivity.
  - exact He.
  - exists (or_string (Comment._previousContent c1) (Comment.content c1)).
    split; [| split].
    + rewrite Hh. subst c1. cbn [Comment.assign_content Comment.editHistory].
      now rewrite E5.
    + intros ->. subst c1 c0.
      cbn [Comment._previousContent Comment.assign_content Comment.set_previousContent
           Comment.content or_string].
      now rewrite Htruthy.
    + intros ->. reflexivity.
Qed.

Lemma editContent_records_stashed_content_witness :
  let c := sample_comment 21%N 0%N in
  let r := editContent true " second draft " sample_now (c, sample_world) in
  validateComment c = Ok tt
  /\ trim " second draft " <> Comment.content c
  /\ fst r = Ok tt
  /\ Comment.content (fst (snd r)) = "second draft"%string
  /\ Comment.edited (fst (snd r)) = true
  /\ Comment.editHistory (fst (snd r)) = [EditEntry.mk "first draft" sample_now "User edit"].
Proof.
  intros c r.
  assert (Hne : trim " second draft " <> Comment.content c) by discriminate.
  pose proof (editContent_records_stashed_content true " second draft " sample_now c
                sample_world eq_refl eq_refl eq_refl Hne)
    as (Hok & Hcontent & He & recorded & Hh & Hstash & _).
  split; [reflexivity |]. split; [exact Hne |]. split; [exact Hok |].
  split; [exact Hcontent |]. split; [exact He |].
  unfold r. rewrite Hh, (Hstash eq_refl). reflexivity.
Defined.

(** ** The trending pipeline *)

Section SortDesc.
Context {A : Type} (key : A -> Q).

Lemma insert_desc_In (x y : A) (l : list A) :
  In y (insert_desc key x l) <-> y = x \/ In y l.
Proof.
  induction l as [| z l IH]; simpl.
  - intuition.
  - destruct (Qle_bool (key z) (key x)); simpl; [intuition |].
    rewrite IH. intuition.
Qed.

Lemma insert_desc_sorted (x : A) (l : list A) :
  StronglySorted (desc key) l -> StronglySorted (desc key) (insert_desc key x l).
Proof.
  induction 1 as [| z l Hs IH Hz]; simpl.
  - constructor; [constructor | constructor].
  - destruct (Qle_bool (key z) (key x)) eqn:Hle.
    + apply Qle_bool_iff in Hle.
      constructor; [constructor; assumption |].
      constructor; [exact Hle |].
      apply List.Forall_forall. intros y Hy.
      rewrite List.Forall_forall in Hz. specialize (Hz y Hy).
      unfold desc in *. apply Qle_trans with (key z); assumption.
    + constructor; [exact IH |].
      apply List.Forall_forall. intros y Hy. apply insert_desc_In in Hy.
      destruct Hy as [-> | Hy].
      * unfold desc. apply Qlt_le_weak. apply Qnot_le_lt. intros Hc.
        apply Qle_bool_iff in Hc. congruence.
      * rewrite List.Forall_forall in Hz. exact (Hz y Hy).
Qed.

Lemma sort_desc_sorted (l : list A) : StronglySorted (desc key) (sort_desc key l).
Proof.
  induction l as [| x l IH]; simpl; [constructor | now apply insert_desc_sorted].
Qed.

Lemma sort_desc_In (y : A) (l : list A) : In y (sort_desc key l) <-> In y l.
Proof.
  induction l as [| x l IH]; simpl; [reflexivity |].
  rewrite insert_desc_In, IH. intuition.
Qed.

Lemma firstn_sorted (n : nat) (l : list A) :
  StronglySorted (desc key) l -> StronglySorted (desc key) (firstn n l).
Proof.
  intros Hs. revert n. induction Hs as [| x l Hs IH Hx]; intros [| n]; simpl;
    try constructor.
  - apply IH.
  - apply List.Forall_forall. intros y Hy. rewrite List.Forall_forall in Hx.
    apply Hx. revert Hy. clear. revert n.
    induction l as [| z l IHl]; intros [| n]; simpl; intuition eauto.
Qed.
End SortDesc.

Lemma firstn_subset {A : Type} (n : nat) (l : list A) (y : A) :
  In y (firstn n l) -> In y l.
Proof.
  revert n. induction l as [| z l IHl]; intros [| n]; simpl; intuition eauto.
Qed.

(** Expanding each element into at most one element of the same key keeps
    a list sorted. *)
Lemma flat_map_sorted {A B : Type} (keyA : A -> Q) (keyB : B -> Q)
    (f : A -> list B) (l : list A) :
  (forall a b, In a l -> In b (f a) -> keyB b = keyA a) ->
  (forall a, (length (f a) <= 1)%nat) ->
  StronglySorted (desc keyA) l -> StronglySorted (desc keyB) (flat_map f l).
Proof.
  intros Hkey Hlen Hs. induction Hs as [| x l Hs IH Hx]; simpl; [constructor |].
  assert (IH' : StronglySorted (desc keyB) (flat_map f l)).
  { apply IH. intros a b Ha. apply Hkey. now right. }
  specialize (Hlen x). destruct (f x) as [| b [| b' rest]] eqn:Hfx; simpl in *;
    [exact IH' | | lia].
  constructor; [exact IH' |].
  apply List.Forall_forall. intros b' Hb'. apply in_flat_map in Hb'.
  destruct Hb' as (a & Ha & Hb').
  rewrite List.Forall_forall in Hx. specialize (Hx a Ha). unfold desc in *.
  rewrite (Hkey a b' (or_intror Ha) Hb').
  rewrite (Hkey x b (or_introl eq_refl)); [exact Hx |].
  rewrite Hfx. now left.
Qed.

Lemma mapResult_ok {A B : Type} (f : A -> Result B) (l : list A) :
  (forall x, In x l -> exists y, f x = Ok y) ->
  exists ys, mapResult f l = Ok ys
             /\ (forall y, In y ys -> exists x, In x l /\ f x = Ok y)
             /\ length ys = length l.
Proof.
  induction l as [| x l IH]; intros Hall; simpl.
  - exists []. split; [reflexivity |]. split; [intros y [] | reflexivity].
  - destruct (Hall x (or_introl eq_refl)) as [y Hy]. rewrite Hy.
    destruct IH as (ys & -> & Hys & Hlen); [intros z Hz; apply Hall; now right |].
    exists (y :: ys). split; [reflexivity |]. split.
    + intros y' [<- | Hy']; [exists x; auto |].
      destruct (Hys y' Hy') as (x' & Hx' & Hf). exists x'. auto.
    + simpl. now rewrite Hlen.
Qed.

(** The documents the [$match] stage lets through. *)
Lemma matched_In (subject : option string) (w : World) (p : Post.t) :
  In p (filter (fun p => matches subject p = true) (snd <$> map_to_list (posts w))) <->
  matches subject p = true /\ exists i, posts w !! i = Some p.
Proof.
  rewrite <- list_elem_of_In, list_elem_of_filter, list_elem_of_fmap.
  split.
  - intros (Hm & (i, q) & -> & Hin). apply elem_of_map_to_list in Hin. eauto.
  - intros (Hm & i & Hi). split; [exact Hm |].
    exists (i, p). split; [reflexivity | now apply elem_of_map_to_list].
Qed.

Lemma divisor_nonzero (d : Z) :
  d <> - day_ms ->
  Qeq_bool (1 + inject_Z d / inject_Z (1000 * 60 * 60 * 24)) 0 = false.
Proof.
  intros Hd. destruct (Qeq_bool _ 0) eqn:E; [| reflexivity].
  exfalso. apply Qeq_bool_iff in E. apply Hd.
  unfold Qdiv in E.
  change (/ inject_Z (1000 * 60 * 60 * 24))%Q with (1 # 86400000)%Q in E.
  unfold Qeq in E. cbn in E. unfold day_ms. lia.
Qed.

(** The score of the pipeline is the popularity score of a document whose
    comment count is not populated. *)
Lemma stage_score_popularity (p : Post.t) :
  Post.commentsCount p = None -> (stage_score p == Post.popularityScore p)%Q.
Proof.
  intros Hc. rewrite (popularityScore_unpopulated p Hc). reflexivity.
Qed.

Lemma stage_trendingScore_formula (now : Time) (p : Post.t) :
  now - Post.publishedAt p <> - day_ms ->
  stage_trendingScore now p =
  Ok ((num (Post.likesCount p) * 2 + num (Post.savesCount p) * 3
       + num (Post.views p) * (1 # 10) + Rating.average (Post.rating p) * 20)
      / (1 + inject_Z (now - Post.publishedAt p) / inject_Z 86400000))%Q.
Proof.
  intros Hd. unfold stage_trendingScore, divide, stage_recency.
  rewrite (divisor_nonzero _ Hd). reflexivity.
Qed.

Lemma summary_score_project (now : Time) (p : Post.t) (u : User.t) (q : Q) :
  stage_trendingScore now p = Ok q -> summary_trendingScore now (project p u) = q.
Proof.
  unfold stage_trendingScore, divide. destruct (Qeq_bool _ 0); [discriminate |].
  intros [= <-]. reflexivity.
Qed.

Lemma addFields_inv (now : Time) (p : Post.t) (c : Candidate.t) :
  addFields now p = Ok c ->
  Candidate.doc c = p /\ stage_trendingScore now p = Ok (Candidate.trendingScore c).
Proof.
  unfold addFields. destruct (stage_trendingScore now p) as [q | e]; [| discriminate].
  intros [= <-]. split; reflexivity.
Qed.

(** The trending score of the pipeline leaves the comments out: on the
    sample post, which has four comments, it is 53.5 where the popularity
    score over the age gives 56.5. *)
Lemma trendingScore_ignores_comments :
  exists q : Q,
    stage_trendingScore sample_now sample_post = Ok q
    /\ ~ (q == spec_trendingScore sample_world sample_now sample_post)%Q.
Proof.
  eexists. split; [vm_compute; reflexivity |].
  vm_compute. discriminate.
Qed.

Lemma unwind_at_most_one (w : World) (c : Candidate.t) :
  (length (unwind_project (lookup_author w c)) <= 1)%nat.
Proof.
  unfold unwind_project, lookup_author. cbn [Candidate.doc Candidate.authorDetails].
  rewrite length_map. destruct (users w !! Post.author (Candidate.doc c)); simpl; lia.
Qed.

(** C2 (amended). For every candidate of [getTrending] the trending score is
    (likeCount*2 + saveCount*3 + views*0.1 + rating.average*20) / (1 + recencyDays),
    with recencyDays = (now - publishedAt) / 86400000 and no comment term;
    with a positive limit and no candidate published exactly one day after
    [now], the call returns at most [limit] results, sorted by descending
    trending score. *)
Theorem getTrending_trendingScore_sorted (limit : option Z) (subject : option string)
    (now : Time) (w : World) :
  0 < default 10 limit ->
  (forall i p, posts w !! i = Some p -> matches subject p = true ->
               now - Post.publishedAt p <> - day_ms) ->
  (forall i p, posts w !! i = Some p -> matches subject p = true ->
     stage_trendingScore now p =
     Ok ((num (Post.likesCount p) * 2 + num (Post.savesCount p) * 3
          + num (Post.views p) * (1 # 10) + Rating.average (Post.rating p) * 20)
         / (1 + inject_Z (now - Post.publishedAt p) / inject_Z 86400000))%Q)
  /\ exists results : list Summary.t,
       getTrending limit subject now w = Ok results
       /\ StronglySorted (desc (summary_trendingScore now)) results
       /\ (Z.of_nat (length results) <= default 10 limit).
Proof.
  intros Hlimit Hdated. split.
  - intros i p Hi Hm. apply stage_trendingScore_formula. eauto.
  - unfold getTrending. cbv zeta.
    destruct (Z.leb_spec (default 10 limit) 0) as [? | _]; [lia |].
    set (matched := filter _ _).
    assert (Hall : forall p, In p matched -> exists c, addFields now p = Ok c).
    { intros p Hp. apply matched_In in Hp. destruct Hp as (Hm & i & Hi).
      unfold addFields. rewrite (stage_trendingScore_formula now p (Hdated i p Hi Hm)).
      eauto. }
    destruct (mapResult_ok (addFields now) matched Hall) as (cands & Hrun & Hcands & _).
    rewrite Hrun.
    eexists. split; [reflexivity |].
    set (limited := firstn _ _).
    assert (Hinv : forall c, In c limited ->
              stage_trendingScore now (Candidate.doc c) = Ok (Candidate.trendingScore c)).
    { intros c Hc. subst limited. apply firstn_subset in Hc.
      apply (proj1 (sort_desc_In Candidate.trendingScore c cands)) in Hc.
      destruct (Hcands c Hc) as (p & _ & Hadd).
      apply addFields_inv in Hadd. destruct Hadd as [Hdoc Hts].
      rewrite Hdoc. exact Hts. }
    assert (Hsorted : StronglySorted (desc Candidate.trendingScore) limited).
    { subst limited. apply firstn_sorted, sort_desc_sorted. }
    assert (Hlen : (length limited <= Z.to_nat (default 10%Z limit))%nat).
    { subst limited. apply firstn_le_length. }
    rewrite flat_map_concat_map, map_map, <- flat_map_concat_map.
    split.
    + apply flat_map_sorted with (keyA := Candidate.trendingScore); [| | exact Hsorted].
      * intros c s Hc Hs. unfold unwind_project, lookup_author in Hs.
        cbn [Candidate.doc Candidate.authorDetails] in Hs.
        apply in_map_iff in Hs. destruct Hs as (u & <- & _).
        apply summary_score_project. now apply Hinv.
      * intros c. apply unwind_at_most_one.
    + assert (Hflat : forall l : list Candidate.t,
                (length (flat_map (fun c => unwind_project (lookup_author w c)) l)
                 <= length l)%nat).
      { induction l as [| c l IH]; simpl; [lia |].
        rewrite length_app. pose proof (unwind_at_most_one w c). lia. }
      specialize (Hflat limited). lia.
Qed.

Lemma getTrending_trendingScore_sorted_witness :
  0 < default 10 (None : option Z)
  /\ exists results,
       getTrending None None sample_now sample_world = Ok results
       /\ length results = 2%nat
       /\ StronglySorted (desc (summary_trendingScore sample_now)) results.
Proof.
  assert (Hlimit : 0 < default 10 (None : option Z)) by reflexivity.
  split; [exact Hlimit |].
  assert (Hdated : forall i p, posts sample_world !! i = Some p ->
            matches None p = true ->
            sample_now - Post.publishedAt p <> - day_ms).
  { intros i p Hi _. unfold sample_world in Hi. cbn [posts] in Hi.
    apply lookup_insert_Some in Hi. destruct Hi as [[_ <-] | [_ Hi]]; [discriminate |].
    apply lookup_singleton_Some in Hi. destruct Hi as [_ <-]. discriminate. }
  destruct (proj2 (getTrending_trendingScore_sorted None None sample_now
                     sample_world Hlimit Hdated)) as (results & Hrun & Hsorted & _).
  exists results. split; [exact Hrun |]. split; [| exact Hsorted].
  assert (Hlen : option_map (@length Summary.t) (Some results) = Some 2%nat).
  { replace (Some results)
      with (match getTrending None None sample_now sample_world with
            | Ok r => Some r
            | Err _ => None
            end) by (rewrite Hrun; reflexivity).
    vm_compute. reflexivity. }
  injection Hlen as Hlen. exact Hlen.
Defined.

(** A subject filter that no published post matches gives no result. *)
Lemma getTrending_no_match (limit : option Z) (subject : string) (now : Time) (w : World) :
  0 < default 10 limit -> subject <> ""%string ->
  (forall i p, posts w !! i = Some p -> Post.status p = PostStatus.published ->
               Post.subject p <> subject) ->
  getTrending limit (Some subject) now w = Ok [].
Proof.
  intros Hlimit Hs Hnone. unfold getTrending. cbv zeta.
  destruct (Z.leb_spec (default 10 limit) 0) as [? | _]; [lia |].
  replace (filter _ _) with (@nil Post.t);
    [cbn [mapResult sort_desc fold_right]; rewrite firstn_nil; reflexivity |].
  symmetry.
  destruct (filter _ _) as [| p l] eqn:Hf; [reflexivity |]. exfalso.
  assert (Hin : In p (filter (fun p => matches (Some subject) p = true)
                         (snd <$> map_to_list (posts w)))) by (rewrite Hf; now left).
  apply matched_In in Hin. destruct Hin as (Hm & i & Hi).
  unfold matches in Hm. apply andb_prop in Hm. destruct Hm as [Hst Hsub].
  cbn [truthy_opt_string default] in Hsub. unfold truthy_string in Hsub.
  destruct (String.eqb_spec subject ""); [contradiction |]. cbn [negb] in Hsub.
  apply String.eqb_eq in Hsub.
  apply (Hnone i p Hi); [| exact Hsub].
  destruct (Post.status p); try discriminate. reflexivity.
Qed.

(** C8. [getTrending] with limit 0 does not return an empty sequence: the
    pipeline carries [{ $limit: 0 }], which the server rejects, whatever the
    subject filter and the collections hold. *)
Theorem getTrending_limit_zero_rejected (subject : option string) (now : Time) (w : World) :
  getTrending (Some 0) subject now w = Err (MongoServerError "the limit must be positive")
  /\ getTrending (Some 0) subject now w <> Ok [].
Proof.
  assert (Hrun : getTrending (Some 0) subject now w
                 = Err (MongoServerError "the limit must be positive")).
  { unfold getTrending. cbn [default]. destruct (Z.leb_spec 0 0); [reflexivity | lia]. }
  split; [exact Hrun |]. rewrite Hrun. discriminate.
Qed.

(** ** Accepted answers *)

Lemma acceptAnswer_run (postId commentId : ObjectId) (w : World) :
  acceptAnswer postId commentId w =
  match posts w !! postId, comments w !! commentId with
  | Some p, Some c =>
      if negb (PostType.eqb (Post.postType p) PostType.question)
      then (Err (InvalidStateError "post is not a question"), w)
      else if negb (N.eqb (Comment.post c) postId)
      then (Err (InvalidStateError "comment does not belong to post"), w)
      else
        (Ok tt,
         mkWorld (alter (Post.set_isSolved true) postId (posts w))
           (alter (Comment.set_isAcceptedAnswer true) commentId
              ((fun c' => if N.eqb (Comment.post c') postId
                          then Comment.set_isAcceptedAnswer false c' else c')
                 <$> comments w))
           (users w))
  | _, _ => (Err (NotFoundError "post or comment"), w)
  end.
Proof.
  unfold acceptAnswer, bind, get, modify, throw.
  destruct (posts w !! postId) as [p |]; [| reflexivity].
  destruct (comments w !! commentId) as [c |]; [| reflexivity].
  destruct (negb (PostType.eqb _ _)); [reflexivity |].
  destruct (negb (N.eqb _ _)); reflexivity.
Qed.

(** What a successful call leaves in the comments collection. *)
Lemma acceptAnswer_lookup (postId commentId : ObjectId) (w : World)
    (i : ObjectId) (ci : Comment.t) :
  fst (acceptAnswer postId commentId w) = Ok tt ->
  comments (snd (acceptAnswer postId commentId w)) !! i = Some ci ->
  exists c0 : Comment.t,
    comments w !! i = Some c0
    /\ Comment.post ci = Comment.post c0
    /\ Comment.isAcceptedAnswer ci =
       (if decide (commentId = i) then true
        else if N.eqb (Comment.post c0) postId then false
             else Comment.isAcceptedAnswer c0)
    /\ (i = commentId -> Comment.post c0 = postId).
Proof.
  rewrite acceptAnswer_run.
  destruct (posts w !! postId) as [p |]; [| discriminate].
  destruct (comments w !! commentId) as [c |] eqn:Hc; [| discriminate].
  destruct (negb (PostType.eqb _ _)); [discriminate |].
  destruct (N.eqb (Comment.post c) postId) eqn:Hbelongs; [| discriminate].
  cbn [negb fst snd comments]. intros _ Hi.
  rewrite lookup_alter, !lookup_fmap in Hi.
  destruct (decide (commentId = i)) as [<- | Hne].
  - rewrite Hc in Hi. simpl in Hi. injection Hi as <-.
    exists c. split; [exact Hc |]. rewrite Hbelongs. cbn.
    split; [reflexivity |]. split; [reflexivity |].
    intros _. now apply N.eqb_eq.
  - destruct (comments w !! i) as [c0 |]; simpl in Hi; [| discriminate].
    injection Hi as <-. exists c0. split; [reflexivity |].
    split; [| split].
    + destruct (N.eqb (Comment.post c0) postId); reflexivity.
    + destruct (N.eqb (Comment.post c0) postId); reflexivity.
    + intros ->. contradiction.
Qed.

Lemma acceptAnswer_failure (postId commentId : ObjectId) (w : World) :
  fst (acceptAnswer postId commentId w) <> Ok tt ->
  snd (acceptAnswer postId commentId w) = w.
Proof.
  rewrite acceptAnswer_run.
  destruct (posts w !! postId) as [p |]; [| reflexivity].
  destruct (comments w !! commentId) as [c |]; [| reflexivity].
  destruct (negb (PostType.eqb _ _)); [reflexivity |].
  destruct (negb (N.eqb _ _)); [reflexivity |].
  intros H. exfalso. now apply H.
Qed.

(** One call keeps the invariant of every post, and establishes it for the
    post it is about. *)
Lemma acceptAnswer_invariant (postId commentId q : ObjectId) (w : World) :
  atMostOneAccepted q w \/ (q = postId /\ fst (acceptAnswer postId commentId w) = Ok tt) ->
  atMostOneAccepted q (snd (acceptAnswer postId commentId w)).
Proof.
  intros Hpre.
  destruct (fst (acceptAnswer postId commentId w)) as [[] | e] eqn:Hres.
  2:{ rewrite acceptAnswer_failure by (rewrite Hres; discriminate).
      destruct Hpre as [H | [_ H]]; [exact H | discriminate]. }
  intros i j ci cj Hi Hj Hpi Hpj Hai Haj.
  destruct (acceptAnswer_lookup postId commentId w i ci Hres Hi)
    as (ci0 & Hi0 & Hposti & Hacci & Hbi).
  destruct (acceptAnswer_lookup postId commentId w j cj Hres Hj)
    as (cj0 & Hj0 & Hpostj & Haccj & Hbj).
  rewrite Hposti in Hpi. rewrite Hpostj in Hpj.
  rewrite Hacci in Hai. rewrite Haccj in Haj.
  destruct (N.eq_dec q postId) as [-> | Hq].
  - (* the post of the call: only the given comment is accepted *)
    apply N.eqb_eq in Hpi, Hpj. rewrite Hpi in Hai. rewrite Hpj in Haj.
    destruct (decide (commentId = i)) as [<- |]; [| discriminate].
    destruct (decide (commentId = j)) as [<- |]; [reflexivity | discriminate].
  - (* another post: its comments are untouched *)
    destruct Hpre as [Hinv | [? _]]; [| contradiction].
    assert (Hni : commentId <> i).
    { intros <-. apply Hq. rewrite <- Hpi. now apply Hbi. }
    assert (Hnj : commentId <> j).
    { intros <-. apply Hq. rewrite <- Hpj. now apply Hbj. }
    destruct (decide (commentId = i)); [contradiction |].
    destruct (decide (commentId = j)); [contradiction |].
    assert (Ei : N.eqb (Comment.post ci0) postId = false) by (apply N.eqb_neq; congruence).
    assert (Ej : N.eqb (Comment.post cj0) postId = false) by (apply N.eqb_neq; congruence).
    rewrite Ei in Hai. rewrite Ej in Haj.
    exact (Hinv i j ci0 cj0 Hi0 Hj0 Hpi Hpj Hai Haj).
Qed.

(** C9. Any sequence of [acceptAnswer] calls keeps at most one accepted
    comment per post; a call that succeeds leaves the given comment as the
    only accepted comment of its post, whatever was accepted before, and
    the post solved. *)
Theorem acceptAnswer_at_most_one :
  (forall (calls : list (ObjectId * ObjectId)) (w : World) (q : ObjectId),
     atMostOneAccepted q w -> atMostOneAccepted q (acceptAnswers calls w))
  /\ (forall (postId commentId : ObjectId) (w : World),
        fst (acceptAnswer postId commentId w) = Ok tt ->
        let w' := snd (acceptAnswer postId commentId w) in
        atMostOneAccepted postId w'
        /\ (exists c, comments w' !! commentId = Some c
                      /\ Comment.post c = postId /\ Comment.isAcceptedAnswer c = true)
        /\ (forall j c, j <> commentId -> comments w' !! j = Some c ->
                        Comment.post c = postId -> Comment.isAcceptedAnswer c = false)
        /\ (exists p, posts w' !! postId = Some p
                      /\ Post.postType p = PostType.question /\ Post.isSolved p = true)).
Proof.
  split.
  - induction calls as [| [postId commentId] rest IH]; intros w q Hinv; simpl.
    + exact Hinv.
    + apply IH. apply acceptAnswer_invariant. now left.
  - intros postId commentId w Hok w'. subst w'.
    split; [apply acceptAnswer_invariant; now right |].
    split; [| split].
    + pose proof Hok as Hrun. rewrite acceptAnswer_run in Hrun |- *.
      destruct (posts w !! postId) as [p |]; [| discriminate].
      destruct (comments w !! commentId) as [c |] eqn:Hc; [| discriminate].
      destruct (negb (PostType.eqb _ _)); [discriminate |].
      destruct (N.eqb (Comment.post c) postId) eqn:Hb; [| discriminate].
      cbn [negb snd comments].
      rewrite lookup_alter_eq, lookup_fmap, Hc. cbn. rewrite Hb.
      eexists. split; [reflexivity |]. split; [now apply N.eqb_eq | reflexivity].
    + intros j c Hj Hlook Hpost.
      destruct (acceptAnswer_lookup postId commentId w j c Hok Hlook)
        as (c0 & _ & Hp0 & Hacc & _).
      rewrite Hacc. destruct (decide (commentId = j)); [congruence |].
      rewrite <- Hp0, Hpost, N.eqb_refl. reflexivity.
    + rewrite acceptAnswer_run in Hok |- *.
      destruct (posts w !! postId) as [p |] eqn:Hp; [| discriminate].
      destruct (comments w !! commentId) as [c |]; [| discriminate].
      destruct (PostType.eqb (Post.postType p) PostType.question) eqn:Hq;
        [| discriminate].
      destruct (negb (N.eqb _ _)); [discriminate |].
      cbn [negb snd posts]. rewrite lookup_alter_eq, Hp. cbn.
      eexists. split; [reflexivity |]. split; [| reflexivity].
      cbn. destruct (Post.postType p); try discriminate. reflexivity.
Qed.

Lemma acceptAnswer_at_most_one_witness :
  atMostOneAccepted 1%N sample_world
  /\ atMostOneAccepted 1%N
       (acceptAnswers [(1%N, 21%N); (1%N, 99%N); (1%N, 23%N)] sample_world)
  /\ fst (acceptAnswer 1%N 21%N sample_world) = Ok tt.
Proof.
  assert (Hinit : atMostOneAccepted 1%N sample_world).
  { intros i j ci cj Hi Hj _ _ Hai _. exfalso.
    unfold sample_world in Hi. cbn [comments] in Hi.
    repeat (apply lookup_insert_Some in Hi; destruct Hi as [[_ <-] | [_ Hi]];
            [discriminate |]).
    rewrite lookup_empty in Hi. discriminate. }
  split; [exact Hinit |]. split.
  - exact (proj1 acceptAnswer_at_most_one _ sample_world 1%N Hinit).
  - reflexivity.
Defined.

(** * Further properties of the models *)

(** ** [readTime] *)

Lemma split_ws_length (cur : string) (in_ws : bool) (s : string) :
  (1 <= length (split_ws cur in_ws s) <= String.length s + 1)%nat.
Proof.
  revert cur in_ws. induction s as [| c s IH]; intros cur in_ws; simpl; [lia |].
  destruct (is_space c).
  - destruct in_ws; simpl.
    + specialize (IH cur true). lia.
    + specialize (IH EmptyString true). lia.
  - specialize (IH (cur ++ String c EmptyString)%string false). lia.
Qed.

Lemma string_app_empty_r (s : string) : (s ++ EmptyString)%string = s.
Proof.
  induction s as [| a s IH]; [reflexivity |].
  change (String a (s ++ EmptyString)%string = String a s). now rewrite IH.
Qed.

Lemma string_app_snoc (s t : string) (c : Ascii.ascii) :
  ((s ++ String c EmptyString) ++ t)%string = (s ++ String c t)%string.
Proof.
  induction s as [| a s IH]; [reflexivity |].
  change (String a ((s ++ String c EmptyString) ++ t)%string
          = String a (s ++ String c t)%string).
  now rewrite IH.
Qed.

Lemma split_ws_no_space (cur : string) (s : string) :
  (forall c, In c (list_ascii_of_string s) -> is_space c = false) ->
  split_ws cur false s = [(cur ++ s)%string].
Proof.
  revert cur. induction s as [| c s IH]; intros cur Hns; simpl.
  - now rewrite string_app_empty_r.
  - rewrite (Hns c) by (simpl; now left).
    rewrite IH by (intros c' Hc'; apply Hns; simpl; now right).
    now rewrite string_app_snoc.
Qed.

Lemma Qceiling_per_200 (n : N) :
  Qceiling (num n / num 200) = (Z.of_N n + 199) / 200.
Proof.
  unfold Qceiling, num, Qdiv.
  change (/ inject_Z (Z.of_N 200))%Q with (1 # 200)%Q.
  unfold Qfloor, Qopp, Qmult, inject_Z. cbn [Qnum Qden].
  rewrite Z.mul_1_r. change (Z.pos (1 * 200)) with 200.
  Z.to_euclidean_division_equations. lia.
Qed.

(** The reading time is at least one minute, whatever the content, the
    empty one included; it is one minute for a content without white space,
    and never more than one minute per 200 characters plus one. *)
Theorem readTime_bounds (p : Post.t) :
  1 <= readTime p
  /\ readTime p <= Z.of_N (strlen (Post.content p)) / 200 + 1
  /\ ((forall c, In c (list_ascii_of_string (Post.content p)) -> is_space c = false) ->
      readTime p = 1).
Proof.
  unfold readTime. cbv zeta. rewrite Qceiling_per_200.
  pose proof (split_ws_length EmptyString false (Post.content p)) as [Hlo Hhi].
  fold (split_whitespace (Post.content p)) in Hlo, Hhi.
  split; [| split].
  - Z.to_euclidean_division_equations. lia.
  - unfold strlen. Z.to_euclidean_division_equations. lia.
  - intros Hns. unfold split_whitespace.
    rewrite (split_ws_no_space EmptyString _ Hns). reflexivity.
Qed.

Lemma readTime_bounds_witness :
  (forall c, In c (list_ascii_of_string (Post.content sample_draft)) -> is_space c = false)
  /\ readTime sample_draft = 1.
Proof.
  assert (Hns : forall c, In c (list_ascii_of_string (Post.content sample_draft)) ->
                          is_space c = false).
  { simpl. intros c Hc. repeat (destruct Hc as [<- | Hc]; [reflexivity |]). destruct Hc. }
  split; [exact Hns |]. exact (proj2 (proj2 (readTime_bounds sample_draft)) Hns).
Defined.

(** ** Saving a post *)

Lemma strlen_app (a b : string) : strlen (a ++ b)%string = (strlen a + strlen b)%N.
Proof.
  unfold strlen. induction a as [| c a IH]; [reflexivity |].
  change (N.of_nat (S (String.length (a ++ b)%string))
          = (N.of_nat (S (String.length a)) + N.of_nat (String.length b))%N).
  lia.
Qed.

Lemma strlen_substring_0 (n : nat) (s : string) :
  (strlen (substring 0 n s) <= N.of_nat n)%N.
Proof.
  unfold strlen. revert s. induction n as [| n IH]; intros [| c s];
    cbn [substring String.length]; try lia.
  specialize (IH s). rewrite !Nat2N.inj_succ. lia.
Qed.

(** Validation reads the document through seven paths only. *)
Lemma validatePost_ext (p q : Post.t) :
  Post.title q = Post.title p -> Post.content q = Post.content p ->
  Post.excerpt q = Post.excerpt p -> Post.authorName q = Post.authorName p ->
  Post.subject q = Post.subject p -> Post.tags q = Post.tags p ->
  Rating.average (Post.rating q) = Rating.average (Post.rating p) ->
  validatePost q = validatePost p.
Proof.
  intros Ht Hc He Ha Hs Hg Hr. unfold validatePost.
  now rewrite Ht, Hc, He, Ha, Hs, Hg, Hr.
Qed.

Lemma postPreSave_excerpt (now : Time) (p : Post.t) :
  truthy_string (Post.content p) = true ->
  Post.excerpt (postPreSave now p) =
  if truthy_opt_string (Post.excerpt p) then Post.excerpt p
  else Some (substring 0 200 (Post.content p) ++ "...")%string.
Proof.
  intros Hc. unfold postPreSave.
  destruct (Post.isModified "title" p); cbn [Post.excerpt Post.content Post.set_slug];
    rewrite Hc; destruct (truthy_opt_string (Post.excerpt p)); reflexivity.
Qed.

Lemma postPreSave_validated_paths (now : Time) (p : Post.t) :
  let p' := postPreSave now p in
  Post.title p' = Post.title p /\ Post.content p' = Post.content p
  /\ Post.authorName p' = Post.authorName p /\ Post.subject p' = Post.subject p
  /\ Post.tags p' = Post.tags p /\ Post.rating p' = Post.rating p
  /\ Post.status p' = Post.status p /\ Post.author p' = Post.author p.
Proof.
  unfold postPreSave.
  destruct (Post.isModified "title" p);
    destruct (negb (truthy_opt_string (Post.excerpt _)) && truthy_string (Post.content _));
    simpl; repeat split; reflexivity.
Qed.

(** A post that passes validation is saved, keeps a truthy excerpt it had,
    gets the first 200 characters of its content followed by three dots as
    excerpt otherwise (also when the content is shorter), and passes
    validation again afterwards: it can be saved once more. *)
Theorem save_keeps_valid (now : Time) (p : Post.t) (w : World) :
  validatePost p = Ok tt ->
  let r := save now (p, w) in
  let p' := fst (snd r) in
  fst r = Ok tt
  /\ Post.excerpt p' =
     (if truthy_opt_string (Post.excerpt p) then Post.excerpt p
      else Some (substring 0 200 (Post.content p) ++ "...")%string)
  /\ truthy_opt_string (Post.excerpt p') = true
  /\ validatePost p' = Ok tt
  /\ (forall later, fst (save later (snd r)) = Ok tt).
Proof.
  intros Hvalid r p'. subst p' r. rewrite save_run, Hvalid. cbv zeta. cbn [fst snd].
  pose proof Hvalid as Hv. apply validatePost_Ok_iff in Hv.
  destruct Hv as (V1 & V2 & V3 & V4 & V5 & V6 & V7).
  assert (Hcontent : truthy_string (Post.content p) = true).
  { unfold truthy_string. destruct (String.eqb_spec (Post.content p) "") as [E |];
      [rewrite E in V2; discriminate | reflexivity]. }
  destruct (postPreSave_validated_paths now p) as (Ht & Hc & Ha & Hs & Hg & Hr & _).
  pose proof (postPreSave_excerpt now p Hcontent) as He.
  set (q := Post.reset_tracking (postPreSave now p)).
  assert (Hq : Post.excerpt q =
               if truthy_opt_string (Post.excerpt p) then Post.excerpt p
               else Some (substring 0 200 (Post.content p) ++ "...")%string)
    by exact He.
  assert (Htruthy : truthy_opt_string (Post.excerpt q) = true).
  { rewrite Hq. destruct (truthy_opt_string (Post.excerpt p)) eqn:E; [exact E |].
    cbn [truthy_opt_string]. unfold truthy_string.
    destruct (String.eqb_spec (substring 0 200 (Post.content p) ++ "...") "") as [E0 |];
      [| reflexivity].
    apply (f_equal strlen) in E0. rewrite strlen_app in E0.
    change (strlen "...") with 3%N in E0. change (strlen "") with 0%N in E0. lia. }
  assert (Hvq : validatePost q = Ok tt).
  { apply validatePost_Ok_iff.
    change (Post.title q) with (Post.title (postPreSave now p)).
    change (Post.content q) with (Post.content (postPreSave now p)).
    change (Post.authorName q) with (Post.authorName (postPreSave now p)).
    change (Post.subject q) with (Post.subject (postPreSave now p)).
    change (Post.tags q) with (Post.tags (postPreSave now p)).
    change (Post.rating q) with (Post.rating (postPreSave now p)).
    rewrite Ht, Hc, Ha, Hs, Hg, Hr, Hq.
    repeat split; try assumption.
    destruct (truthy_opt_string (Post.excerpt p)); [exact V3 |].
    apply N.leb_le. rewrite strlen_app. change (strlen "...") with 3%N.
    pose proof (strlen_substring_0 200 (Post.content p)). lia. }
  split; [reflexivity |]. split; [exact Hq |]. split; [exact Htruthy |].
  split; [exact Hvq |]. intros later. now apply save_ok.
Qed.

Lemma save_keeps_valid_witness :
  validatePost sample_post = Ok tt
  /\ Post.excerpt (fst (snd (save sample_now (sample_post, sample_world)))) =
     Some "A short summary of limits, continuity and the squeeze theorem...."%string.
Proof.
  split; [reflexivity |].
  exact (proj1 (proj2 (save_keeps_valid sample_now sample_post sample_world eq_refl))).
Defined.

(** The document [incrementViews] hands to [save]. *)
Lemma incrementViews_doc (userId : option ObjectId) (now : Time) (p : Post.t) (w : World) :
  exists p2 : Post.t,
    incrementViews userId now (p, w) = save now (p2, w)
    /\ validatePost p2 = validatePost p
    /\ Post.status p2 = Post.status p /\ Post.author p2 = Post.author p
    /\ Post.views p2 = (Post.views p + 1)%N /\ Post.isNew p2 = Post.isNew p.
Proof.
  rewrite incrementViews_run. cbv zeta. eexists. split; [reflexivity |].
  destruct userId as [uid |]; [destruct (find _ _) |]; repeat split; reflexivity.
Qed.

(** The post-save hook counts a post for its author at every save, not only
    at the first one: a view of a published post that passes validation adds
    one to the author's [stats.postsCount], whether the post is new or not;
    the other users are untouched, and so is everyone when the post is not
    published. *)
Theorem incrementViews_counts_post_again (userId : option ObjectId) (now : Time)
    (p : Post.t) (w : World) (u : User.t) :
  validatePost p = Ok tt ->
  users w !! Post.author p = Some u ->
  let w' := snd (snd (incrementViews userId now (p, w))) in
  (Post.status p = PostStatus.published ->
   users w' !! Post.author p = Some (User.inc_postsCount u)
   /\ User.postsCount (User.stats (User.inc_postsCount u))
      = (User.postsCount (User.stats u) + 1)%N)
  /\ (forall j, j <> Post.author p -> users w' !! j = users w !! j)
  /\ (Post.status p <> PostStatus.published -> users w' = users w).
Proof.
  intros Hvalid Hu w'. subst w'.
  destruct (incrementViews_doc userId now p w) as (p2 & -> & Hv2 & Hst & Hau & _).
  rewrite save_run, Hv2, Hvalid. cbv zeta. cbn [fst snd].
  destruct (postPreSave_validated_paths now p2) as (_ & _ & _ & _ & _ & _ & Hst' & Hau').
  unfold postPostSave.
  change (Post.status (Post.reset_tracking (postPreSave now p2)))
    with (Post.status (postPreSave now p2)).
  change (Post.author (Post.reset_tracking (postPreSave now p2)))
    with (Post.author (postPreSave now p2)).
  rewrite Hst', Hau', Hst, Hau.
  split; [| split].
  - intros Hpub. rewrite Hpub. cbn [PostStatus.eqb users set_users storePost set_posts].
    rewrite lookup_alter_eq, Hu. split; reflexivity.
  - intros j Hj. destruct (PostStatus.eqb _ _); cbn [users set_users storePost set_posts];
      [now rewrite lookup_alter_ne | reflexivity].
  - intros Hnp. destruct (Post.status p); try contradiction; reflexivity.
Qed.

Lemma incrementViews_counts_post_again_witness :
  Post.isNew sample_post = false
  /\ User.postsCount (User.stats sample_user) = 1%N
  /\ exists u', users (snd (snd (incrementViews None sample_now (sample_post, sample_world))))
                  !! 7%N = Some u'
                /\ User.postsCount (User.stats u') = 2%N.
Proof.
  split; [reflexivity |]. split; [reflexivity |].
  exists (User.inc_postsCount sample_user). split; [| reflexivity].
  exact (proj1 (proj1 (incrementViews_counts_post_again None sample_now sample_post
                         sample_world sample_user eq_refl eq_refl) eq_refl)).
Defined.

(** When the document does not pass validation, [incrementViews] rejects
    with a validation error and writes nothing: the collections are as
    before, while the counter of the document in memory has been raised. *)
Theorem incrementViews_rejected (userId : option ObjectId) (now : Time)
    (p : Post.t) (w : World) :
  validatePost p <> Ok tt ->
  let r := incrementViews userId now (p, w) in
  (exists path, fst r = Err (ValidationError path))
  /\ snd (snd r) = w
  /\ Post.views (fst (snd r)) = (Post.views p + 1)%N
  /\ Post.lastActivity (fst (snd r)) = Post.lastActivity p.
Proof.
  intros Hinvalid r. subst r. rewrite incrementViews_run. cbv zeta.
  set (p2 := match userId with Some _ => _ | None => _ end).
  assert (Hv2 : validatePost p2 = validatePost p).
  { subst p2. destruct userId as [uid |]; [destruct (find _ _) |]; reflexivity. }
  assert (Hviews : Post.views p2 = (Post.views p + 1)%N).
  { subst p2. destruct userId as [uid |]; [destruct (find _ _) |]; reflexivity. }
  assert (Hla : Post.lastActivity p2 = Post.lastActivity p).
  { subst p2. destruct userId as [uid |]; [destruct (find _ _) |]; reflexivity. }
  rewrite save_run, Hv2.
  destruct (validatePost p) as [[] | e] eqn:Hvp; [contradiction |].
  cbn [fst snd]. split; [| auto].
  unfold validatePost, first_error in Hvp.
  destruct (find _ _) as [c |]; [| discriminate].
  injection Hvp as <-. eauto.
Qed.

Lemma incrementViews_rejected_witness :
  validatePost sample_draft = Err (ValidationError "title")
  /\ snd (snd (incrementViews None sample_now (sample_draft, sample_world))) = sample_world
  /\ Post.views (fst (snd (incrementViews None sample_now (sample_draft, sample_world))))
     = 1%N.
Proof.
  assert (Hinvalid : validatePost sample_draft <> Ok tt) by discriminate.
  pose proof (incrementViews_rejected None sample_now sample_draft sample_world Hinvalid)
    as (_ & Hw & Hviews & _).
  split; [reflexivity |]. split; [exact Hw | exact Hviews].
Defined.

(** ** The view history *)




(** ** Ratings *)

(** The rating of the document after a call of [addRating]. *)
Lemma addRating_rating (userId : ObjectId) (v : Z) (now : Time) (p : Post.t) (w : World) :
  Post.rating (fst (snd (addRating userId v now (p, w)))) =
  if (v <? 1) || (v >? 5) then Post.rating p
  else
    let d' := Details.set v (default 0%N (Details.get v (Rating.details (Post.rating p))) + 1)%N
                (Rating.details (Post.rating p)) in
    Rating.mk (Rating.average_setter (num (weighted_total d') / num (values_total d')))
              (values_total d') d'.
Proof.
  destruct (Z.ltb_spec v 1) as [Hlo | Hlo]; cbn [orb].
  - rewrite addRating_out_of_range by lia. reflexivity.
  - destruct (Z.gtb_spec v 5) as [Hhi | Hhi].
    + rewrite addRating_out_of_range by lia. reflexivity.
    + destruct (addRating_in_range userId v now p w (conj Hlo Hhi)) as (p1 & -> & Hr & _).
      rewrite (proj1 (proj2 (proj2 (save_frame now p1 w)))). exact Hr.
Qed.

(** After a rating in 1..5 the average lies between 1 and 5 and has one
    decimal, and the count is at least one, whatever the rating state of
    the document was before. *)
Theorem addRating_average_range (userId : ObjectId) (v : Z) (now : Time)
    (p : Post.t) (w : World) :
  1 <= v <= 5 ->
  let r' := Post.rating (fst (snd (addRating userId v now (p, w)))) in
  (1 <= Rating.average r' <= 5)%Q
  /\ (exists k : Z, 10 <= k <= 50 /\ (Rating.average r' == inject_Z k / 10)%Q)
  /\ (1 <= Rating.count r')%N.
Proof.
  intros Hv r'. subst r'. rewrite addRating_rating.
  destruct (Z.ltb_spec v 1); [lia |]. destruct (Z.gtb_spec v 5); [lia |].
  cbn [orb]. cbv zeta. cbn [Rating.average Rating.count].
  pose proof (totals_after_increment v (Rating.details (Post.rating p)) Hv) as Hpos.
  cbv zeta in Hpos.
  set (d' := Details.set v _ _) in *.
  pose proof (average_setter_bounds _ _ Hpos (weighted_total_bounds d')) as Hb.
  split; [exact Hb |]. split; [| exact Hpos].
  exists (Qfloor (num (weighted_total d') / num (values_total d') * 10 + (1 # 2))).
  split; [| reflexivity].
  destruct Hb as [Hlo Hhi]. unfold Rating.average_setter, Math_round in Hlo, Hhi.
  set (k := Qfloor _) in *.
  assert (Ek : (inject_Z k == inject_Z k / 10 * 10)%Q) by (field; discriminate).
  split.
  - rewrite Zle_Qle, Ek. change (inject_Z 10) with (1 * 10)%Q.
    apply Qmult_le_compat_r; [exact Hlo | discriminate].
  - rewrite Zle_Qle, Ek. change (inject_Z 50) with (5 * 10)%Q.
    apply Qmult_le_compat_r; [exact Hhi | discriminate].
Qed.

Lemma addRating_average_range_witness :
  let r' := Post.rating (fst (snd (addRating 11%N 1 sample_now (sample_post2, sample_world)))) in
  1 <= 1 <= 5 /\ (1 <= Rating.average r' <= 5)%Q /\ (1 <= Rating.count r')%N.
Proof.
  intros r'. assert (Hv : 1 <= 1 <= 5) by lia.
  pose proof (addRating_average_range 11%N 1 sample_now sample_post2 sample_world Hv)
    as (Hb & _ & Hc).
  split; [exact Hv |]. split; [exact Hb | exact Hc].
Defined.

Lemma addRating_bucket (userId : ObjectId) (v k : Z) (now : Time) (p : Post.t) (w : World)
    (n : N) :
  1 <= k <= 5 ->
  Details.get k (Rating.details (Post.rating p)) = Some n ->
  Details.get k (Rating.details (Post.rating (fst (snd (addRating userId v now (p, w))))))
  = Some (n + (if Z.eq_dec v k then 1 else 0))%N.
Proof.
  intros Hk Hn. rewrite addRating_rating.
  destruct (Z.eq_dec v k) as [-> | Hne].
  - destruct (Z.ltb_spec k 1); [lia |]. destruct (Z.gtb_spec k 5); [lia |].
    cbn [orb]. cbv zeta. cbn [Rating.details].
    rewrite Hn. cbn [default]. now apply Details_get_set_eq.
  - destruct ((v <? 1) || (v >? 5)).
    + rewrite Hn. f_equal. lia.
    + cbv zeta. cbn [Rating.details]. rewrite Details_get_set_ne by congruence.
      rewrite Hn. f_equal. lia.
Qed.

(** A run of [addRating] calls adds to each bucket of the histogram the
    number of times its value was given: ratings are counted per call, the
    user ids play no part, so a user who rates twice is counted twice, and
    values outside 1..5 change no bucket. *)
Theorem addRatings_histogram (ratings : list (ObjectId * Z)) (k : Z) (now : Time)
    (p : Post.t) (w : World) (n : N) :
  1 <= k <= 5 ->
  Details.get k (Rating.details (Post.rating p)) = Some n ->
  Details.get k (Rating.details (Post.rating (fst (addRatings ratings now (p, w)))))
  = Some (n + N.of_nat (count_occ Z.eq_dec (map snd ratings) k))%N.
Proof.
  intros Hk. revert p w n.
  induction ratings as [| [userId v] rest IH]; intros p w n Hn; simpl.
  - rewrite Hn. f_equal. lia.
  - pose proof (addRating_bucket userId v k now p w n Hk Hn) as Hstep.
    destruct (addRating userId v now (p, w)) as [res [p1 w1]]. cbn [fst snd] in *.
    rewrite (IH p1 w1 _ Hstep).
    f_equal. destruct (Z.eq_dec v k); lia.
Qed.

Lemma addRatings_histogram_witness :
  1 <= 5 <= 5
  /\ Details.get 5 (Rating.details (Post.rating sample_post)) = Some 1%N
  /\ Details.get 5 (Rating.details (Post.rating
       (fst (addRatings [(11%N, 5); (11%N, 5); (12%N, 7); (12%N, 4)] sample_now
               (sample_post, sample_world))))) = Some 3%N.
Proof.
  assert (Hk : 1 <= 5 <= 5) by lia.
  split; [exact Hk |]. split; [reflexivity |].
  exact (addRatings_histogram [(11%N, 5); (11%N, 5); (12%N, 7); (12%N, 4)] 5 sample_now
           sample_post sample_world 1%N Hk eq_refl).
Defined.

(** ** Saving a comment *)

Lemma commentPreSave_no_edit (now : Time) (c : Comment.t) :
  Comment.isNew c = true \/ Comment.isModified "content" c = false ->
  Comment.editHistory (commentPreSave now c) = Comment.editHistory c
  /\ Comment.edited (commentPreSave now c) = Comment.edited c.
Proof.
  intros H. unfold commentPreSave.
  assert (E : forall c0, Comment.isNew c0 = Comment.isNew c ->
                Comment.isModified "content" c0 = Comment.isModified "content" c ->
                Comment.isModified "content" c0 && negb (Comment.isNew c0) = false).
  { intros c0 -> ->. destruct H as [-> | ->]; [apply andb_false_r | reflexivity]. }
  destruct (Comment.parentComment c).
  - rewrite E by reflexivity. split; reflexivity.
  - rewrite E by reflexivity. split; reflexivity.
Qed.

(** A save changes [editHistory] and [edited] only for an existing comment
    whose content was modified: saving a new comment, or a comment whose
    content is as stored, leaves both as they were, whether the save
    succeeds or not. *)
Theorem saveComment_history_untouched (now : Time) (c : Comment.t) (w : World) :
  Comment.isNew c = true \/ Comment.isModified "content" c = false ->
  let c' := fst (snd (saveComment now (c, w))) in
  Comment.editHistory c' = Comment.editHistory c
  /\ Comment.edited c' = Comment.edited c.
Proof.
  intros H c'. subst c'. rewrite saveComment_run.
  destruct (validateComment c); [| split; reflexivity].
  cbv zeta. unfold commentPostSave_depth. cbn [fst snd].
  cbn [Comment.editHistory Comment.edited Comment.reset_tracking Comment.set_depth].
  now apply commentPreSave_no_edit.
Qed.

Lemma saveComment_history_untouched_witness :
  let r := createComment 30%N 1%N 7%N "Amal" "a reply" (Some 22%N) sample_now sample_world in
  Comment.isNew (Comment.new 30%N "a reply" 7%N "Amal" 1%N (Some 22%N)) = true
  /\ Comment.editHistory (fst (snd r)) = [] /\ Comment.edited (fst (snd r)) = false.
Proof.
  intros r. split; [reflexivity |].
  exact (saveComment_history_untouched sample_now
           (Comment.new 30%N "a reply" 7%N "Amal" 1%N (Some 22%N)) sample_world
           (or_introl eq_refl)).
Defined.

Lemma commentPreSave_frame (now : Time) (c : Comment.t) :
  let c' := commentPreSave now c in
  Comment.post c' = Comment.post c /\ Comment.author c' = Comment.author c
  /\ Comment.status c' = Comment.status c /\ Comment._id c' = Comment._id c.
Proof.
  unfold commentPreSave.
  destruct (Comment.parentComment c); destruct (_ && _); repeat split; reflexivity.
Qed.

Lemma commentPostSave_posts (now : Time) (doc : Comment.t) (w : World) :
  posts (commentPostSave now doc w)
  = alter (Post.set_lastActivity now) (Comment.post doc) (posts w).
Proof. unfold commentPostSave. destruct (CommentStatus.eqb _ _); reflexivity. Qed.

Lemma commentPostSave_users (now : Time) (doc : Comment.t) (w : World) :
  users (commentPostSave now doc w)
  = if CommentStatus.eqb (Comment.status doc) CommentStatus.active
    then alter User.inc_commentsCount (Comment.author doc) (users w)
    else users w.
Proof. unfold commentPostSave. destruct (CommentStatus.eqb _ _); reflexivity. Qed.

(** Every save of a comment that passes validation, the first one as well
    as a later edit, sets [lastActivity] of the stored post of the comment
    to the current time and, when the comment is active, adds one to the
    [stats.commentsCount] of its author; it changes nothing else of that
    post, no other post, and creates no post when the comment's post is
    missing. *)
Theorem saveComment_side_effects (now : Time) (c : Comment.t) (w : World) :
  validateComment c = Ok tt ->
  let w' := snd (snd (saveComment now (c, w))) in
  (forall p, posts w !! Comment.post c = Some p ->
     posts w' !! Comment.post c = Some (Post.set_lastActivity now p))
  /\ (posts w !! Comment.post c = None -> posts w' !! Comment.post c = None)
  /\ (forall j, j <> Comment.post c -> posts w' !! j = posts w !! j)
  /\ (forall u, users w !! Comment.author c = Some u ->
        users w' !! Comment.author c =
        Some (if CommentStatus.eqb (Comment.status c) CommentStatus.active
              then User.inc_commentsCount u else u))
  /\ (forall j, j <> Comment.author c -> users w' !! j = users w !! j).
Proof.
  intros Hvalid w'. subst w'. rewrite saveComment_run, Hvalid. cbv zeta.
  unfold commentPostSave_depth. cbn [fst snd].
  destruct (commentPreSave_frame now c) as (Hpost & Hauthor & Hstatus & _).
  set (doc := Comment.reset_tracking (commentPreSave now c)).
  assert (Hp : Comment.post doc = Comment.post c) by exact Hpost.
  assert (Ha : Comment.author doc = Comment.author c) by exact Hauthor.
  assert (Hs : Comment.status doc = Comment.status c) by exact Hstatus.
  change (posts (storeComment ?d ?x)) with (posts x).
  change (users (storeComment ?d ?x)) with (users x).
  rewrite commentPostSave_posts, commentPostSave_users, Hp, Ha, Hs.
  change (posts (storeComment doc w)) with (posts w).
  change (users (storeComment doc w)) with (users w).
  repeat split.
  - intros p Hlook. rewrite lookup_alter_eq, Hlook. reflexivity.
  - intros Hlook. rewrite lookup_alter_eq, Hlook. reflexivity.
  - intros j Hj. now rewrite lookup_alter_ne.
  - intros u Hu. destruct (CommentStatus.eqb _ _);
      [rewrite lookup_alter_eq, Hu; reflexivity | exact Hu].
  - intros j Hj. destruct (CommentStatus.eqb _ _);
      [now rewrite lookup_alter_ne | reflexivity].
Qed.

Lemma saveComment_side_effects_witness :
  let c := Comment.assign_content "second draft" (sample_comment 21%N 0%N) in
  let w' := snd (snd (saveComment sample_now (c, sample_world))) in
  validateComment c = Ok tt /\ Comment.isNew c = false
  /\ users sample_world !! 7%N = Some sample_user
  /\ users w' !! 7%N = Some (User.inc_commentsCount sample_user).
Proof.
  intros c w'. split; [reflexivity |]. split; [reflexivity |]. split; [reflexivity |].
  exact (proj1 (proj2 (proj2 (proj2
           (saveComment_side_effects sample_now c sample_world eq_refl))))
           sample_user eq_refl).
Defined.

(** A comment whose content is empty or longer than 2000 characters is
    rejected with a validation error on [content], and one with a valid
    content and author name but a depth above 5 with one on [depth]; the
    document and the collections are left as they were: nothing is stored,
    no post is touched and no statistic is counted. *)
Theorem saveComment_rejects (now : Time) (c : Comment.t) (w : World) :
  ((strlen (Comment.content c) = 0 \/ 2000 < strlen (Comment.content c))%N ->
   saveComment now (c, w) = (Err (ValidationError "content"), (c, w)))
  /\ (len_between 1 2000 (Comment.content c) = true ->
      truthy_string (Comment.authorName c) = true -> (5 < Comment.depth c)%N ->
      saveComment now (c, w) = (Err (ValidationError "depth"), (c, w))).
Proof.
  split.
  - intros Hlen. rewrite saveComment_run.
    unfold validateComment, first_error. cbn [find fst snd].
    assert (E : len_between 1 2000 (Comment.content c) = false).
    { unfold len_between. destruct Hlen as [H0 | Hbig].
      - rewrite H0. reflexivity.
      - apply andb_false_iff. right. apply N.leb_gt. exact Hbig. }
    rewrite E. reflexivity.
  - intros Hc Hn Hd. rewrite saveComment_run.
    unfold validateComment, first_error. cbn [find fst snd].
    rewrite Hc, Hn. cbn [negb].
    assert (E : (Comment.depth c <=? 5)%N = false) by (apply N.leb_gt; exact Hd).
    rewrite E. reflexivity.
Qed.

Lemma saveComment_rejects_witness :
  strlen "" = 0%N
  /\ createComment 30%N 1%N 7%N "Amal" "" None sample_now sample_world
     = (Err (ValidationError "content"),
        (Comment.new 30%N "" 7%N "Amal" 1%N None, sample_world)).
Proof.
  split; [reflexivity |].
  exact (proj1 (saveComment_rejects sample_now (Comment.new 30%N "" 7%N "Amal" 1%N None)
                  sample_world) (or_introl eq_refl)).
Defined.

(** ** More on the trending pipeline *)

Lemma mapResult_inv {A B : Type} (f : A -> Result B) (l : list A) (ys : list B) :
  mapResult f l = Ok ys ->
  (forall y, In y ys -> exists x, In x l /\ f x = Ok y)
  /\ (forall x, In x l -> exists y, In y ys /\ f x = Ok y).
Proof.
  revert ys. induction l as [| x l IH]; intros ys Hrun; simpl in Hrun.
  - injection Hrun as <-. split; intros ? [].
  - destruct (f x) as [y |] eqn:Hfx; [| discriminate].
    destruct (mapResult f l) as [ys' |]; [| discriminate].
    injection Hrun as <-. destruct (IH ys' eq_refl) as [Hsound Hcomplete]. split.
    + intros y' [<- | Hy']; [exists x; split; [now left | exact Hfx] |].
      destruct (Hsound y' Hy') as (x' & Hx' & Hf). exists x'. split; [now right | exact Hf].
    + intros x' [<- | Hx']; [exists y; split; [now left | exact Hfx] |].
      destruct (Hcomplete x' Hx') as (y' & Hy' & Hf). exists y'. split; [now right | exact Hf].
Qed.

Lemma mapResult_err {A B : Type} (f : A -> Result B) (l : list A) (e : Error) :
  (exists x, In x l /\ f x = Err e) ->
  (forall x e', In x l -> f x = Err e' -> e' = e) ->
  mapResult f l = Err e.
Proof.
  induction l as [| x l IH]; intros (x0 & Hin & Hx0) Hall; [destruct Hin |]. simpl.
  destruct (f x) as [y | e'] eqn:Hfx.
  - destruct Hin as [-> | Hin]; [congruence |].
    rewrite IH; [reflexivity | eauto |]. intros x' e' Hx'. apply Hall. now right.
  - f_equal. apply (Hall x e'); [now left | exact Hfx].
Qed.

(** What comes before the cut of a sorted list beats what the cut drops. *)
Lemma sorted_firstn_top {A : Type} (key : A -> Q) (n : nat) (l : list A) (x y : A) :
  StronglySorted (desc key) l -> In x l -> In y (firstn n l) ->
  (key y < key x)%Q -> In x (firstn n l).
Proof.
  intros Hs. revert n. induction Hs as [| z l Hs IH Hz]; intros n Hx Hy Hlt.
  - destruct Hx.
  - destruct n as [| n]; [destruct Hy |]. simpl in *.
    destruct Hx as [-> | Hx]; [now left |].
    destruct Hy as [-> | Hy].
    + exfalso. rewrite List.Forall_forall in Hz. specialize (Hz x Hx). unfold desc in Hz.
      apply (Qlt_not_le _ _ Hlt). exact Hz.
    + right. now apply IH.
Qed.

(** The parts of a run of [getTrending] that succeeded. *)
Lemma getTrending_inv (limit : option Z) (subject : option string) (now : Time)
    (w : World) (results : list Summary.t) :
  getTrending limit subject now w = Ok results ->
  0 < default 10 limit
  /\ exists cands : list Candidate.t,
       mapResult (addFields now)
         (filter (fun p => matches subject p = true) (snd <$> map_to_list (posts w)))
       = Ok cands
       /\ results =
          flat_map (fun c => unwind_project (lookup_author w c))
            (firstn (Z.to_nat (default 10 limit))
                    (sort_desc Candidate.trendingScore cands)).
Proof.
  unfold getTrending. cbv zeta.
  destruct (Z.leb_spec (default 10 limit) 0) as [? | Hpos]; [discriminate |].
  destruct (mapResult _ _) as [cands |]; [| discriminate].
  intros [= <-]. split; [exact Hpos |]. exists cands. split; [reflexivity |].
  now rewrite flat_map_concat_map, map_map, <- flat_map_concat_map.
Qed.

(** Every result of [getTrending] is the projection of a published post of
    the collection that passes the subject filter and whose author is in the
    user collection, with the avatar of that author: a post whose author is
    missing never appears, and neither does a post that is not published. *)
Theorem getTrending_results_provenance (limit : option Z) (subject : option string)
    (now : Time) (w : World) (results : list Summary.t) :
  getTrending limit subject now w = Ok results ->
  forall s, In s results ->
    exists (i : ObjectId) (p : Post.t) (u : User.t),
      posts w !! i = Some p /\ Post.status p = PostStatus.published
      /\ matches subject p = true
      /\ users w !! Post.author p = Some u
      /\ s = project p u /\ Summary.authorAvatar s = User.avatar u.
Proof.
  intros Hrun s Hs.
  destruct (getTrending_inv _ _ _ _ _ Hrun) as (_ & cands & Hcands & ->).
  apply in_flat_map in Hs. destruct Hs as (c & Hc & Hs).
  apply firstn_subset in Hc. apply (proj1 (sort_desc_In _ c cands)) in Hc.
  destruct (proj1 (mapResult_inv _ _ _ Hcands) c Hc) as (p & Hp & Hadd).
  apply addFields_inv in Hadd. destruct Hadd as [Hdoc _].
  apply matched_In in Hp. destruct Hp as (Hm & i & Hi).
  unfold unwind_project, lookup_author in Hs.
  cbn [Candidate.doc Candidate.authorDetails] in Hs. rewrite Hdoc in Hs.
  destruct (users w !! Post.author p) as [u |] eqn:Hu; [| destruct Hs].
  destruct Hs as [<- | []].
  exists i, p, u. repeat split; try assumption.
  unfold matches in Hm. apply andb_prop in Hm. destruct Hm as [Hst _].
  destruct (Post.status p); try discriminate. reflexivity.
Qed.

Lemma getTrending_results_provenance_witness :
  exists results s,
    getTrending (Some 1) None sample_now sample_world = Ok results /\ In s results
    /\ exists i p u, posts sample_world !! i = Some p
                     /\ users sample_world !! Post.author p = Some u /\ s = project p u.
Proof.
  eexists. eexists. split; [vm_compute; reflexivity |]. split; [left; reflexivity |].
  destruct (getTrending_results_provenance (Some 1) None sample_now sample_world _
              ltac:(vm_compute; reflexivity) _ (or_introl eq_refl))
    as (i & p & u & Hi & _ & _ & Hu & Hs & _).
  exists i, p, u. split; [exact Hi |]. split; [exact Hu | exact Hs].
Defined.

(** The results are the top of the ranking: a matching published post whose
    author exists and whose trending score is above that of some result is
    itself among the results. *)
Theorem getTrending_returns_top (limit : option Z) (subject : option string)
    (now : Time) (w : World) (results : list Summary.t)
    (s : Summary.t) (i : ObjectId) (p : Post.t) (u : User.t) :
  getTrending limit subject now w = Ok results ->
  In s results ->
  posts w !! i = Some p -> matches subject p = true ->
  users w !! Post.author p = Some u ->
  (summary_trendingScore now s < summary_trendingScore now (project p u))%Q ->
  In (project p u) results.
Proof.
  intros Hrun Hs Hi Hm Hu Hlt.
  destruct (getTrending_inv _ _ _ _ _ Hrun) as (_ & cands & Hcands & ->).
  destruct (mapResult_inv _ _ _ Hcands) as [Hsound Hcomplete].
  apply in_flat_map in Hs. destruct Hs as (c & Hc & Hs).
  assert (Hcin : In c cands).
  { apply firstn_subset in Hc. now apply (proj1 (sort_desc_In _ c cands)) in Hc. }
  destruct (Hsound c Hcin) as (pc & _ & Haddc).
  apply addFields_inv in Haddc. destruct Haddc as [Hdocc Htsc].
  assert (Hks : summary_trendingScore now s = Candidate.trendingScore c).
  { unfold unwind_project, lookup_author in Hs.
    cbn [Candidate.doc Candidate.authorDetails] in Hs.
    apply in_map_iff in Hs. destruct Hs as (u' & <- & _).
    rewrite Hdocc. now apply summary_score_project. }
  destruct (Hcomplete p) as (cp & Hcp & Haddp).
  { apply matched_In. eauto. }
  apply addFields_inv in Haddp. destruct Haddp as [Hdocp Htsp].
  assert (Hkp : summary_trendingScore now (project p u) = Candidate.trendingScore cp)
    by now apply summary_score_project.
  rewrite Hks, Hkp in Hlt.
  assert (Htop : In cp (firstn (Z.to_nat (default 10 limit))
                          (sort_desc Candidate.trendingScore cands))).
  { apply (sorted_firstn_top Candidate.trendingScore _ _ cp c).
    - apply sort_desc_sorted.
    - now apply sort_desc_In.
    - exact Hc.
    - exact Hlt. }
  apply in_flat_map. exists cp. split; [exact Htop |].
  unfold unwind_project, lookup_author. cbn [Candidate.doc Candidate.authorDetails].
  rewrite Hdocp, Hu. now left.
Qed.

Lemma getTrending_returns_top_witness :
  exists results,
    getTrending None None sample_now sample_world = Ok results
    /\ In (project sample_post2 sample_user) results
    /\ (summary_trendingScore sample_now (project sample_post2 sample_user)
        < summary_trendingScore sample_now (project sample_post sample_user))%Q
    /\ In (project sample_post sample_user) results.
Proof.
  eexists. split; [vm_compute; reflexivity |].
  assert (Hin : In (project sample_post2 sample_user)
                  [project sample_post sample_user; project sample_post2 sample_user])
    by (right; left; reflexivity).
  assert (Hlt : (summary_trendingScore sample_now (project sample_post2 sample_user)
                 < summary_trendingScore sample_now (project sample_post sample_user))%Q)
    by reflexivity.
  split; [exact Hin |]. split; [exact Hlt |].
  exact (getTrending_returns_top None None sample_now sample_world _
           (project sample_post2 sample_user) 1%N sample_post sample_user
           ltac:(vm_compute; reflexivity) Hin eq_refl eq_refl eq_refl Hlt).
Defined.

(** One matching published post dated exactly one day after the current
    time makes the whole query fail on the division, whatever the other
    posts are; an empty string as subject filters nothing. *)
Theorem getTrending_zero_divisor_fails (limit : option Z) (subject : option string)
    (now : Time) (w : World) (i : ObjectId) (p : Post.t) :
  0 < default 10 limit ->
  posts w !! i = Some p -> matches subject p = true ->
  now - Post.publishedAt p = - day_ms ->
  getTrending limit subject now w = Err (MongoServerError "can't $divide by zero")
  /\ getTrending limit (Some ""%string) now w = getTrending limit None now w.
Proof.
  intros Hlimit Hi Hm Hd. split; [| reflexivity].
  unfold getTrending. cbv zeta.
  destruct (Z.leb_spec (default 10 limit) 0) as [? | _]; [lia |].
  rewrite (mapResult_err (addFields now) _ (MongoServerError "can't $divide by zero"));
    [reflexivity | |].
  - exists p. split; [apply matched_In; eauto |].
    unfold addFields, stage_trendingScore, divide, stage_recency. rewrite Hd. reflexivity.
  - intros x e' _. unfold addFields, stage_trendingScore, divide.
    destruct (Qeq_bool _ 0); [congruence | discriminate].
Qed.

Lemma getTrending_zero_divisor_fails_witness :
  (- 86400000) - Post.publishedAt sample_post = - day_ms
  /\ getTrending None None (- 86400000) sample_world
     = Err (MongoServerError "can't $divide by zero").
Proof.
  split; [reflexivity |].
  exact (proj1 (getTrending_zero_divisor_fails None None (- 86400000) sample_world 1%N
                  sample_post eq_refl eq_refl eq_refl eq_refl)).
Defined.

(** ** Users: rank and top contributors *)

(** The rank never goes down when the points go up; it is "newbie" exactly
    below 100 points, negative points included, and "legend" exactly from
    10000 points on. *)
Theorem rank_monotone (u v : Profile.t) :
  Profile.points u <= Profile.points v ->
  (rank_level (Profile.rank u) <= rank_level (Profile.rank v))%nat
  /\ (Profile.rank u = "newbie"%string <-> Profile.points u < 100)
  /\ (Profile.rank u = "legend"%string <-> 10000 <= Profile.points u).
Proof.
  intros Hle. unfold Profile.rank. rewrite !Z.geb_leb.
  repeat match goal with
         | |- context [Z.leb ?a ?b] => destruct (Z.leb_spec a b)
         end;
    (split; [cbn; lia | split; split; intros; try discriminate; try lia; reflexivity]).
Qed.

Lemma rank_monotone_witness :
  let amal := Profile.mk "Amal" "a.png" 2500 [] (User.mk_stats 3 4) true in
  let badr := Profile.mk "Badr" "b.png" 12000 [] (User.mk_stats 9 1) true in
  Profile.points amal <= Profile.points badr
  /\ Profile.rank amal = "expert"%string /\ Profile.rank badr = "legend"%string
  /\ (rank_level (Profile.rank amal) <= rank_level (Profile.rank badr))%nat.
Proof.
  intros amal badr.
  assert (Hle : Profile.points amal <= Profile.points badr) by (cbn; lia).
  split; [exact Hle |]. split; [reflexivity |]. split; [reflexivity |].
  exact (proj1 (rank_monotone amal badr Hle)).
Defined.

Lemma active_In (profiles : gmap ObjectId Profile.t) (u : Profile.t) :
  In u (filter (fun u => Profile.isActive u = true) (snd <$> map_to_list profiles)) <->
  Profile.isActive u = true /\ exists i, profiles !! i = Some u.
Proof.
  rewrite <- list_elem_of_In, list_elem_of_filter, list_elem_of_fmap.
  split.
  - intros (Ha & (i, q) & -> & Hin). apply elem_of_map_to_list in Hin. eauto.
  - intros (Ha & i & Hi). split; [exact Ha |].
    exists (i, u). split; [reflexivity | now apply elem_of_map_to_list].
Qed.

(** With a positive limit [getTopContributors] returns at most [limit]
    contributors, sorted by descending points; each is an active user of the
    collection with [totalContributions] equal to the virtual of the model,
    and an active user with more points than some contributor returned is
    returned too.  Inactive users never appear. *)
Theorem getTopContributors_ranking (limit : option Z) (profiles : gmap ObjectId Profile.t) :
  0 < default 10 limit ->
  exists results : list Contributor.t,
    getTopContributors limit profiles = Ok results
    /\ StronglySorted (desc (fun c => inject_Z (Contributor.points c))) results
    /\ Z.of_nat (length results) <= default 10 limit
    /\ (forall c, In c results ->
          exists i u, profiles !! i = Some u /\ Profile.isActive u = true
                      /\ c = project_contributor u
                      /\ Contributor.totalContributions c = Profile.totalContributions u)
    /\ (forall i u c, profiles !! i = Some u -> Profile.isActive u = true ->
          In c results -> Contributor.points c < Profile.points u ->
          In (project_contributor u) results).
Proof.
  intros Hlimit. unfold getTopContributors. cbv zeta.
  destruct (Z.leb_spec (default 10 limit) 0) as [? | _]; [lia |].
  eexists. split; [reflexivity |].
  set (matched := filter _ _).
  set (key := fun c => inject_Z (Contributor.points c)).
  split; [apply firstn_sorted, sort_desc_sorted |].
  split.
  { pose proof (firstn_le_length (Z.to_nat (default 10%Z limit))
                  (sort_desc key (map project_contributor matched))). lia. }
  split.
  - intros c Hc. apply firstn_subset in Hc.
    apply (proj1 (sort_desc_In key c _)) in Hc.
    apply in_map_iff in Hc. destruct Hc as (u & <- & Hu).
    apply active_In in Hu. destruct Hu as (Ha & i & Hi).
    exists i, u. repeat split; assumption.
  - intros i u c Hi Ha Hc Hlt.
    apply (sorted_firstn_top key _ _ (project_contributor u) c).
    + apply sort_desc_sorted.
    + apply sort_desc_In. apply in_map. apply active_In. eauto.
    + exact Hc.
    + unfold key. cbn [Contributor.points project_contributor].
      now rewrite <- Zlt_Qlt.
Qed.

Lemma getTopContributors_ranking_witness :
  0 < default 10 (Some 1)
  /\ exists results, getTopContributors (Some 1) sample_profiles = Ok results
                     /\ map Contributor.displayName results = ["Badr"%string].
Proof.
  assert (Hlimit : 0 < default 10 (Some 1)) by reflexivity.
  split; [exact Hlimit |].
  destruct (getTopContributors_ranking (Some 1) sample_profiles Hlimit)
    as (results & Hrun & _).
  exists results. split; [exact Hrun |].
  assert (E : Ok results = Ok (firstn 1 (sort_desc (fun c => inject_Z (Contributor.points c))
                 (map project_contributor
                    (filter (fun u => Profile.isActive u = true)
                       (snd <$> map_to_list sample_profiles))))))
    by (rewrite <- Hrun; reflexivity).
  injection E as ->. vm_compute. reflexivity.
Defined.

(** ** server.js: rooms and messages *)

Lemma members_join (socket s : SocketId) (room r : string)
    (rooms : gmap string (gset SocketId)) :
  s ∈ members (join socket room rooms) r <->
  (s = socket /\ r = room) \/ s ∈ members rooms r.
Proof.
  unfold join, members. destruct (decide (room = r)) as [-> | Hne].
  - rewrite lookup_insert_eq. simpl. rewrite elem_of_union, elem_of_singleton.
    intuition congruence.
  - rewrite lookup_insert_ne by exact Hne. intuition congruence.
Qed.

Lemma members_leave_all (socket s : SocketId) (r : string)
    (rooms : gmap string (gset SocketId)) :
  s ∈ members (leave_all socket rooms) r <-> s ∈ members rooms r /\ s <> socket.
Proof.
  unfold leave_all, members. rewrite lookup_fmap.
  destruct (rooms !! r) as [sockets |]; simpl.
  - rewrite elem_of_difference, elem_of_singleton. reflexivity.
  - rewrite elem_of_empty. tauto.
Qed.

Lemma io_to_emit_In (rooms : gmap string (gset SocketId)) (room : string)
    (ev m : ServerEvent) (s : SocketId) :
  In (s, m) (io_to_emit rooms room ev) <-> s ∈ members rooms room /\ m = ev.
Proof.
  unfold io_to_emit. rewrite in_map_iff. split.
  - intros (s' & [= -> ->] & Hin). apply list_elem_of_In, elem_of_elements in Hin. auto.
  - intros (Hin & ->). exists s. split; [reflexivity |].
    now apply list_elem_of_In, elem_of_elements.
Qed.

Lemma socket_to_emit_In (socket : SocketId) (rooms : gmap string (gset SocketId))
    (room : string) (ev m : ServerEvent) (s : SocketId) :
  In (s, m) (socket_to_emit socket rooms room ev) <->
  s ∈ members rooms room /\ s <> socket /\ m = ev.
Proof.
  unfold socket_to_emit. rewrite in_map_iff. split.
  - intros (s' & [= -> ->] & Hin). apply list_elem_of_In, elem_of_elements in Hin.
    apply elem_of_difference in Hin. destruct Hin as [Hin Hne].
    rewrite elem_of_singleton in Hne. auto.
  - intros (Hin & Hne & ->). exists s. split; [reflexivity |].
    apply list_elem_of_In, elem_of_elements, elem_of_difference.
    rewrite elem_of_singleton. auto.
Qed.

(** A typing indicator goes to the sockets of the post room other than the
    sender and to no one else, while a new comment goes to every socket of
    the post room, the sender included when it has joined; neither changes
    the rooms, and no socket gets the message twice. *)
Theorem typing_not_echoed (socket : SocketId) (data : Payload.t)
    (rooms : gmap string (gset SocketId)) :
  let room := post_room (Payload.postId data) in
  let t := on_event socket (typing data) rooms in
  let c := on_event socket (new_comment data) rooms in
  fst t = rooms /\ fst c = rooms
  /\ (forall s m, In (s, m) (snd t) <->
        s ∈ members rooms room /\ s <> socket
        /\ m = user_typing (Payload.userId data) (Payload.userName data))
  /\ (forall s m, In (s, m) (snd c) <-> s ∈ members rooms room /\ m = comment_added data)
  /\ List.NoDup (map fst (snd t)) /\ List.NoDup (map fst (snd c)).
Proof.
  cbv zeta. cbn [on_event fst snd].
  split; [reflexivity |]. split; [reflexivity |].
  split; [intros s m; apply socket_to_emit_In |].
  split; [intros s m; apply io_to_emit_In |].
  unfold socket_to_emit, io_to_emit. rewrite !map_map. cbn [fst]. rewrite !map_id.
  split; apply (proj1 (NoDup_ListNoDup _)), NoDup_elements.
Qed.

(** A notification without a user id, or with an empty one, is sent to no
    one; otherwise it goes to the sockets of the room of that user, and that
    room is never the room of a post. *)
Theorem send_notification_guarded (socket : SocketId) (data : Payload.t)
    (rooms : gmap string (gset SocketId)) :
  let r := on_event socket (send_notification data) rooms in
  fst r = rooms
  /\ (truthy_opt_string (Payload.userId data) = false -> snd r = [])
  /\ (forall s m, In (s, m) (snd r) ->
        s ∈ members rooms (user_room (Payload.userId data))
        /\ m = receive_notification data)
  /\ (forall postId, user_room (Payload.userId data) <> post_room postId).
Proof.
  cbv zeta. cbn [on_event].
  destruct (truthy_opt_string (Payload.userId data)); cbn [fst snd].
  - split; [reflexivity |]. split; [discriminate |].
    split; [intros s m; apply io_to_emit_In | discriminate].
  - split; [reflexivity |]. split; [reflexivity |].
    split; [intros s m [] | discriminate].
Qed.

Lemma send_notification_guarded_witness :
  let data := Payload.mk (Some "p1"%string) None None "hello" in
  truthy_opt_string (Payload.userId data) = false
  /\ snd (on_event 1%N (send_notification data)
            (join 2%N (user_room None) ∅)) = [].
Proof.
  intros data. split; [reflexivity |].
  exact (proj1 (proj2 (send_notification_guarded 1%N data (join 2%N (user_room None) ∅)))
           eq_refl).
Defined.

(** The sockets [trace] has made join [room], seen from the socket. *)
Lemma run_events_joined (trace pre : list (SocketId * ClientEvent))
    (st : gmap string (gset SocketId) * list (SocketId * ServerEvent)) :
  (forall s room, s ∈ members (fst st) room ->
     exists ev, In (s, ev) pre /\ joined_room ev = Some room) ->
  (forall s m, In (s, m) (snd st) ->
     exists ev room, In (s, ev) pre /\ joined_room ev = Some room) ->
  (forall s room, s ∈ members (fst (run_events trace st)) room ->
     exists ev, In (s, ev) (pre ++ trace) /\ joined_room ev = Some room)
  /\ (forall s m, In (s, m) (snd (run_events trace st)) ->
        exists ev room, In (s, ev) (pre ++ trace) /\ joined_room ev = Some room).
Proof.
  revert pre st. induction trace as [| [socket ev] rest IH]; intros pre st Hrooms Hout.
  - rewrite app_nil_r. split; assumption.
  - cbn [run_events]. cbv zeta.
    replace (pre ++ (socket, ev) :: rest) with ((pre ++ [(socket, ev)]) ++ rest)
      by (rewrite <- app_assoc; reflexivity).
    assert (Hpre : forall s e, In (s, e) pre -> In (s, e) (pre ++ [(socket, ev)]))
      by (intros; apply in_or_app; now left).
    assert (Hmem : forall s room, s ∈ members (fst st) room ->
              exists e r, In (s, e) (pre ++ [(socket, ev)]) /\ joined_room e = Some r).
    { intros s room Hs. destruct (Hrooms s room Hs) as (e & He & Hj). eauto. }
    apply IH; cbn [fst snd].
    + intros s room Hs.
      assert (Hold : s ∈ members (fst st) room ->
                exists e, In (s, e) (pre ++ [(socket, ev)]) /\ joined_room e = Some room).
      { intros Hs'. destruct (Hrooms s room Hs') as (e & He & Hj). eauto. }
      destruct ev; cbn [on_event fst] in Hs; try (now apply Hold);
        try (destruct (truthy_opt_string _); now apply Hold).
      * apply members_join in Hs. destruct Hs as [[-> ->] | Hs]; [| now apply Hold].
        exists (join_user userId). split; [apply in_or_app; right; now left | reflexivity].
      * apply members_join in Hs. destruct Hs as [[-> ->] | Hs]; [| now apply Hold].
        exists (join_post postId). split; [apply in_or_app; right; now left | reflexivity].
      * apply members_leave_all in Hs. destruct Hs as [Hs _]. now apply Hold.
    + intros s m Hin. apply in_app_or in Hin. destruct Hin as [Hin | Hin].
      { destruct (Hout s m Hin) as (e & r & He & Hj). eauto. }
      destruct ev; cbn [on_event snd] in Hin; try (destruct Hin; fail).
      * apply io_to_emit_In in Hin. destruct Hin as [Hs _]. eauto.
      * apply io_to_emit_In in Hin. destruct Hin as [Hs _]. eauto.
      * destruct (truthy_opt_string _); cbn [snd] in Hin; [| destruct Hin].
        apply io_to_emit_In in Hin. destruct Hin as [Hs _]. eauto.
      * apply socket_to_emit_In in Hin. destruct Hin as [Hs _]. eauto.
Qed.

(** From a server without rooms, a socket is in a room only through a join
    event of its own for that room, and it is sent a message only after it
    joined some room: a socket that never joins receives nothing.  After
    its disconnection a socket is in no room. *)
Theorem sockets_receive_only_after_join (trace : list (SocketId * ClientEvent)) :
  let st := run_events trace (∅, []) in
  (forall s room, s ∈ members (fst st) room ->
     exists ev, In (s, ev) trace /\ joined_room ev = Some room)
  /\ (forall s m, In (s, m) (snd st) ->
        exists ev room, In (s, ev) trace /\ joined_room ev = Some room)
  /\ (forall s, (forall ev, In (s, ev) trace -> joined_room ev = None) ->
        forall m, ~ In (s, m) (snd st))
  /\ (forall s room, s ∉ members (fst (on_event s disconnect (fst st))) room).
Proof.
  cbv zeta.
  destruct (run_events_joined trace [] (∅, [])) as [Hrooms Hout].
  - intros s room Hs. unfold members in Hs. cbn [fst] in Hs.
    rewrite lookup_empty in Hs. cbn in Hs. set_solver.
  - intros s m [].
  - split; [exact Hrooms |]. split; [exact Hout |]. split.
    + intros s Hnever m Hin. destruct (Hout s m Hin) as (ev & room & Hev & Hj).
      rewrite (Hnever ev Hev) in Hj. discriminate.
    + intros s room Hs. cbn [on_event fst] in Hs.
      apply members_leave_all in Hs. destruct Hs as [_ Hne]. now apply Hne.
Qed.

(** ** server.js: error responses *)



(** ** The [trim] setter at work *)

(** A comment whose content is only white space is rejected at creation,
    and nothing is stored. *)
Lemma createComment_blank_rejected (id post author : ObjectId) (authorName content : string)
    (parentComment : option ObjectId) (now : Time) (w : World) :
  trim content = EmptyString ->
  fst (createComment id post author authorName content parentComment now w)
  = Err (ValidationError "content")
  /\ snd (snd (createComment id post author authorName content parentComment now w)) = w.
Proof.
  intros Hblank. unfold createComment. rewrite saveComment_run.
  unfold validateComment, first_error. cbn [find fst snd Comment.new Comment.content].
  rewrite Hblank. split; reflexivity.
Qed.

(** Assigning a content that differs from the current one only by white
    space at its ends is no modification: the save that follows appends
    nothing to [editHistory]. *)
Lemma editContent_same_after_trim (stash : bool) (newContent : string) (now : Time)
    (c : Comment.t) (w : World) :
  Comment.isModified "content" c = false ->
  trim newContent = Comment.content c ->
  let c' := fst (snd (editContent stash newContent now (c, w))) in
  Comment.editHistory c' = Comment.editHistory c
  /\ Comment.edited c' = Comment.edited c
  /\ Comment.content c' = Comment.content c.
Proof.
  intros Hmod Hsame c'. subst c'. rewrite editContent_run.
  set (c0 := if stash then Comment.set_previousContent (Some (Comment.content c)) c else c).
  assert (Hc0 : Comment.content c0 = Comment.content c
                /\ Comment.modifiedPaths c0 = Comment.modifiedPaths c
                /\ Comment.editHistory c0 = Comment.editHistory c
                /\ Comment.edited c0 = Comment.edited c).
  { subst c0. destruct stash; repeat split; reflexivity. }
  destruct Hc0 as (E1 & E2 & E3 & E4).
  set (c1 := Comment.assign_content newContent c0).
  assert (Hmod1 : Comment.isModified "content" c1 = false).
  { subst c1. unfold Comment.isModified. cbn [Comment.assign_content Comment.modifiedPaths].
    rewrite E1, Hsame, String.eqb_refl, E2. exact Hmod. }
  destruct (commentPreSave_no_edit now c1 (or_intror Hmod1)) as [Hh He].
  assert (Hc : Comment.content (commentPreSave now c1) = Comment.content c1).
  { unfold commentPreSave.
    destruct (Comment.parentComment c1); destruct (_ && _); reflexivity. }
  assert (Hc1 : Comment.editHistory c1 = Comment.editHistory c
                /\ Comment.edited c1 = Comment.edited c
                /\ Comment.content c1 = Comment.content c).
  { subst c1. cbn [Comment.assign_content Comment.editHistory Comment.edited Comment.content].
    rewrite E3, E4, Hsame. repeat split; reflexivity. }
  destruct Hc1 as (F1 & F2 & F3).
  rewrite saveComment_run. destruct (validateComment c1); cbn [fst snd].
  - cbv zeta. unfold commentPostSave_depth. cbn [fst snd].
    cbn [Comment.editHistory Comment.edited Comment.content Comment.reset_tracking
         Comment.set_depth].
    rewrite Hh, He, Hc, F1, F2, F3. repeat split; reflexivity.
  - rewrite F1, F2, F3. repeat split; reflexivity.
Qed.
